(** * go-logger: the diagnostics agent, its listener adapters and its queue

    A shallow embedding of the agent (package [logger]), of the typed
    listener adapters and of the collaborators they call, followed by the
    properties of the event-dispatch pipeline. *)

From Stdlib Require Import ZArith.
From stdpp Require Import gmap strings list.

Local Open Scope string_scope.
Local Open Scope list_scope.
Set Warnings "-register-all".

(** ** Values that travel through the queue *)

(** [type EventFlag string] and [type AnsiColorCode string]: the agent
    converts a flag with [string(eventFlag)] to print it as a label. *)
Abbreviation EventFlag := string (only parsing).
Abbreviation AnsiColorCode := string (only parsing).

(** A [TimeSource] is the instant [TimeNow()] captured. *)
Abbreviation TimeSource := Z (only parsing).

(** An [http.Request] behind its pointer, as far as the helpers read it. *)
Record Request := mkRequest {
  Method : string;
  URLPath : string;
  RemoteAddr : string
}.

(** An [error] value: what [errors.New] and [fmt.Errorf] build. *)
Record GoError := errorString { Message : string }.

(** [interface{}]: the dynamic types that the agent and the adapters put
    into or expect from an argument tuple.  [VSlice] is a [[]interface{}]
    stored as ONE value, [VRequest None] a nil request pointer, [VFloat] a
    value of a type nobody decodes and [VNil] the nil interface. *)
Inductive Value :=
| VTime (ts : TimeSource)
| VFlag (eventFlag : EventFlag)
| VColor (color : AnsiColorCode)
| VString (s : string)
| VError (err : GoError)
| VRequest (req : option Request)
| VInt (n : Z)
| VDuration (d : Z)
| VBytes (b : list Byte.byte)
| VFloat (bits : Z)
| VSlice (elems : list Value)
| VNil.

(** What stops a goroutine. *)
Inductive PanicKind := NilDereference | IndexOutOfRange | NilMapWrite.

Inductive outcome (A : Type) :=
| Returns (a : A)
| Panics (why : PanicKind).
Arguments Returns {A} a.
Arguments Panics {A} why.

Definition outcome_bind {A B} (o : outcome A) (k : A -> outcome B) : outcome B :=
  match o with
  | Returns a => k a
  | Panics why => Panics why
  end.

(** [state[i]] on a Go slice: out of range panics. *)
Definition index (state : list Value) (i : nat) : outcome Value :=
  match state !! i with
  | Some v => Returns v
  | None => Panics IndexOutOfRange
  end.

(** Modelled from the spec: the [stateAs...] decoders are called by the
    agent and by the adapters but are not among the source files.  The spec
    (4.3) has each one decode an untyped value to its type and fail with an
    internal error, never a crash, on any other dynamic type. *)
Definition errTypeConversion : GoError := errorString "type conversion error".

Definition stateAsTimeSource (state : Value) : TimeSource + GoError :=
  match state with VTime ts => inl ts | _ => inr errTypeConversion end.

Definition stateAsEventFlag (state : Value) : EventFlag + GoError :=
  match state with VFlag f => inl f | _ => inr errTypeConversion end.

Definition stateAsAnsiColorCode (state : Value) : AnsiColorCode + GoError :=
  match state with VColor c => inl c | _ => inr errTypeConversion end.

Definition stateAsString (state : Value) : string + GoError :=
  match state with VString s => inl s | _ => inr errTypeConversion end.

Definition stateAsRequest (state : Value) : option Request + GoError :=
  match state with VRequest r => inl r | _ => inr errTypeConversion end.

Definition stateAsInteger (state : Value) : Z + GoError :=
  match state with VInt n => inl n | _ => inr errTypeConversion end.

Definition stateAsDuration (state : Value) : Z + GoError :=
  match state with VDuration d => inl d | _ => inr errTypeConversion end.

Definition stateAsBytes (state : Value) : list Byte.byte + GoError :=
  match state with VBytes b => inl b | _ => inr errTypeConversion end.

(** The type assertions of [state[0]] to [error] and to a request pointer. *)
Definition assertError (v : Value) : option GoError :=
  match v with VError e => Some e | _ => None end.

Definition assertRequest (v : Value) : option (option Request) :=
  match v with VRequest r => Some r | _ => None end.

(** ** The package's constants and the standard library it calls *)

(** The flag and colour constants are declared in files that are not among
    the sources, and [fmt.Sprintf] and the wall clock belong to Go: the
    development is parametric in all of them.  [clock n] is what the
    [n]-th call of [TimeNow()] in the process returns. *)
Class Package := {
  EventInfo : EventFlag;
  EventDebug : EventFlag;
  EventWarning : EventFlag;
  EventError : EventFlag;
  EventFatalError : EventFlag;
  ColorWhite : AnsiColorCode;
  ColorLightYellow : AnsiColorCode;
  ColorRed : AnsiColorCode;
  Sprintf : string -> list Value -> string;
  clock : nat -> TimeSource
}.

(** [fmt.Errorf]: a fresh non-nil error carrying the formatted text. *)
Definition fmt_Errorf `{Package} (format : string) (args : list Value) : GoError :=
  errorString (Sprintf format args).

(** ** EventFlagSet *)

(** Modelled from the spec: the flag set is not among the source files.
    The spec (3, 4.1) gives it a mask over event kinds plus the named
    combinations "all" and "none", [Enable], [Disable] and an [IsEnabled]
    that reflects the latest of the two for each kind and answers false on
    a nil set.  [mask] holds the kinds that differ from the default that
    [all] fixes. *)
Record EventFlagSet := mkEventFlagSet {
  all : bool;
  mask : gset string
}.

Definition NewEventFlagSetNone : EventFlagSet := mkEventFlagSet false ∅.
Definition NewEventFlagSetAll : EventFlagSet := mkEventFlagSet true ∅.
Definition NewEventFlagSetWithEvents (flags : list EventFlag) : EventFlagSet :=
  mkEventFlagSet false (list_to_set flags).

Definition efs_IsEnabled (efs : option EventFlagSet) (flagValue : EventFlag) : bool :=
  match efs with
  | None => false
  | Some s => xorb (all s) (bool_decide (flagValue ∈ mask s))
  end.

Definition efs_Enable (s : EventFlagSet) (flagValue : EventFlag) : EventFlagSet :=
  mkEventFlagSet (all s)
    (if all s then mask s ∖ {[flagValue]} else mask s ∪ {[flagValue]}).

Definition efs_Disable (s : EventFlagSet) (flagValue : EventFlag) : EventFlagSet :=
  mkEventFlagSet (all s)
    (if all s then mask s ∪ {[flagValue]} else mask s ∖ {[flagValue]}).

(** ** The work queue *)

(** The three method values the agent hands to the queue:
    [da.triggerListeners], [da.write] and [da.writeError]. *)
Inductive Action := ActTriggerListeners | ActWrite | ActWriteError.

(** A queued call: the worker runs [action(args...)]. *)
Record Task := mkTask {
  action : Action;
  args : list Value
}.

(** Modelled from the spec: [workqueue.Queue] is the external
    github.com/blendlabs/go-workqueue.  The spec (4.2) makes it a FIFO
    buffer of pending tasks whose [Enqueue] appends, failing with
    [ErrClosed] once the queue is closed, whose [Len] counts the pending
    tasks and whose [Close] stops the intake, a second close being a
    no-op.  A producer that meets a full buffer waits for a free slot; the
    model describes the call once it has completed. *)
Record Queue := mkQueue {
  work : list Task;
  closed : bool
}.

Definition ErrClosed : GoError := errorString "queue is closed".

Definition Queue_Enqueue (q : Queue) (t : Task) : Queue * option GoError :=
  if closed q then (q, Some ErrClosed)
  else (mkQueue (work q ++ [t]) false, None).

Definition Queue_Len (q : Queue) : nat := length (work q).

Definition Queue_Close (q : Queue) : Queue * option GoError :=
  (mkQueue (work q) true, None).

(** ** Failure and state *)

#[global] Instance outcome_ret : MRet outcome := fun _ a => Returns a.
#[global] Instance outcome_mbind : MBind outcome :=
  fun _ _ k o => outcome_bind o k.

Section Logger.

(** [W] is whatever the writer and the listeners' callbacks act on: the
    output streams, counters, a test's record of calls. *)
Context {W : Type}.
Context `{pkg : Package}.

(** Modelled from the spec: the [Logger] interface is declared in a file
    that is not among the sources.  The spec (6) lists its methods; these
    are the three the agent calls, the two printers acting on the world. *)
Record Logger := mkLogger {
  PrintfWithTimeSource : TimeSource -> string -> list Value -> W -> W * option GoError;
  ErrorfWithTimeSource : TimeSource -> string -> list Value -> W -> W * option GoError;
  Colorize : string -> AnsiColorCode -> string
}.

(** [type EventListener func(writer, ts, eventFlag, state ...interface{})].
    A listener acts on the world or panics. *)
Definition EventListener : Type :=
  Logger -> TimeSource -> EventFlag -> list Value -> W -> outcome W.

(** The strongly-typed callbacks; a callback is taken to return. *)
Definition ErrorListener : Type := Logger -> TimeSource -> GoError -> W -> W.
Definition RequestStartListener : Type :=
  Logger -> TimeSource -> option Request -> W -> W.
Definition RequestListener : Type :=
  Logger -> TimeSource -> option Request -> Z -> Z -> Z -> W -> W.
Definition RequestBodyListener : Type :=
  Logger -> TimeSource -> list Byte.byte -> W -> W.

(** *** The typed adapters *)

Definition NewErrorListener (listener : ErrorListener) : EventListener :=
  fun writer ts eventFlag state w =>
    if (0 <? length state)%nat then
      s0 ← index state 0;
      match assertError s0 with
      | Some typedError => Returns (listener writer ts typedError w)
      | None => Returns w
      end
    else Returns w.

Definition NewRequestStartListener (listener : RequestStartListener) : EventListener :=
  fun writer ts eventFlag state w =>
    if (0 <? length state)%nat then
      s0 ← index state 0;
      match assertRequest s0 with
      | Some typedRequest => Returns (listener writer ts typedRequest w)
      | None => Returns w
      end
    else Returns w.

Definition NewRequestListener (listener : RequestListener) : EventListener :=
  fun writer ts eventFlag state w =>
    if (length state <? 3)%nat then Returns w
    else
      s0 ← index state 0;
      match stateAsRequest s0 with
      | inr _ => Returns w
      | inl req =>
        s1 ← index state 1;
        match stateAsInteger s1 with
        | inr _ => Returns w
        | inl statusCode =>
          s2 ← index state 2;
          match stateAsInteger s2 with
          | inr _ => Returns w
          | inl contentLengthBytes =>
            s3 ← index state 3;
            match stateAsDuration s3 with
            | inr _ => Returns w
            | inl elapsed =>
              Returns (listener writer ts req statusCode contentLengthBytes elapsed w)
            end
          end
        end
      end.

Definition NewRequestBodyListener (listener : RequestBodyListener) : EventListener :=
  fun writer ts eventFlag state w =>
    if (length state <? 1)%nat then Returns w
    else
      s0 ← index state 0;
      match stateAsBytes s0 with
      | inr _ => Returns w
      | inl body => Returns (listener writer ts body w)
      end.

(** [type ResponseListener func(writer, ts, body []byte)]. *)
Definition ResponseListener : Type := RequestBodyListener.

Definition NewResponseListener (listener : ResponseListener) : EventListener :=
  fun writer ts eventFlag state w =>
    if (length state <? 1)%nat then Returns w
    else
      s0 ← index state 0;
      match stateAsBytes s0 with
      | inr _ => Returns w
      | inl res => Returns (listener writer ts res w)
      end.

(** *** The agent *)

(** The mutex [eventListenersLock] holds no data: which registry accesses
    happen with it held is modelled under "The registry lock" below.
    [eventQueue] is set by [New] and never reassigned. *)
Record Agent := mkAgent {
  writer : Logger;
  events : option EventFlagSet;
  eventListeners : option (gmap string (list EventListener));
  eventQueue : Queue
}.

Definition set_events (e : option EventFlagSet) (da : Agent) : Agent :=
  mkAgent (writer da) e (eventListeners da) (eventQueue da).
Definition set_eventListeners (m : option (gmap string (list EventListener)))
    (da : Agent) : Agent :=
  mkAgent (writer da) (events da) m (eventQueue da).
Definition set_eventQueue (q : Queue) (da : Agent) : Agent :=
  mkAgent (writer da) (events da) (eventListeners da) q.

(** [New(events, writer)], the writer given: the registry starts as an
    empty map, the queue open and empty. *)
Definition New (events : option EventFlagSet) (optionalWriter : Logger) : Agent :=
  mkAgent optionalWriter events (Some ∅) (mkQueue [] false).

(** What a method call sees: the agent its receiver [da] points to, [None]
    for a nil receiver, and how often the clock has been read. *)
Record Process := mkProcess {
  this : option Agent;
  ticks : nat
}.

Definition M (A : Type) : Type := Process -> outcome (A * Process).

Definition ret {A} (a : A) : M A := fun p => Returns (a, p).

Definition bind {A B} (m : M A) (k : A -> M B) : M B :=
  fun p =>
    match m p with
    | Returns (a, p') => k a p'
    | Panics why => Panics why
    end.

Notation "x <- m ;; k" := (bind m (fun x => k))
  (at level 100, m at next level, right associativity).
Notation "m ;; k" := (bind m (fun _ => k))
  (at level 100, right associativity).

Definition panic {A} (why : PanicKind) : M A := fun _ => Panics why.

(** [da == nil]. *)
Definition receiverIsNil : M bool :=
  fun p => Returns (match this p with None => true | Some _ => false end, p).

(** Reading a field through [da]: a nil receiver panics. *)
Definition deref : M Agent :=
  fun p =>
    match this p with
    | Some da => Returns (da, p)
    | None => Panics NilDereference
    end.

(** Writing a field through [da]. *)
Definition update (f : Agent -> Agent) : M unit :=
  fun p =>
    match this p with
    | Some da => Returns (tt, mkProcess (Some (f da)) (ticks p))
    | None => Panics NilDereference
    end.

Definition TimeNow : M TimeSource :=
  fun p => Returns (clock (ticks p), mkProcess (this p) (S (ticks p))).

(** [da.eventQueue.Enqueue(action, args...)]; the agent drops the error. *)
Definition Enqueue (act : Action) (args : list Value) : M unit :=
  da <- deref;;
  update (set_eventQueue (fst (Queue_Enqueue (eventQueue da) (mkTask act args)))).

Definition SetVerbosity (events : option EventFlagSet) : M unit :=
  update (set_events events).

(** [Enable] and [Disable] write the set through its pointer. *)
Definition EnableEvent (eventFlag : EventFlag) : M unit :=
  da <- deref;;
  match events da with
  | None => panic NilDereference
  | Some s => update (set_events (Some (efs_Enable s eventFlag)))
  end.

Definition DisableEvent (eventFlag : EventFlag) : M unit :=
  da <- deref;;
  match events da with
  | None => panic NilDereference
  | Some s => update (set_events (Some (efs_Disable s eventFlag)))
  end.

Definition IsEnabled (flagValue : EventFlag) : M bool :=
  isNil <- receiverIsNil;;
  if isNil then ret false
  else da <- deref;; ret (efs_IsEnabled (events da) flagValue).

Definition HasListener (event : EventFlag) : M bool :=
  isNil <- receiverIsNil;;
  if isNil then ret false
  else
    da <- deref;;
    match eventListeners da with
    | None => ret false
    | Some m =>
      match m !! event with
      | None => ret false
      | Some listeners => ret (0 <? length listeners)%nat
      end
    end.

(** Reading a missing key, or a nil map, gives the nil slice. *)
Definition listenersOf (da : Agent) (eventFlag : EventFlag) : list EventListener :=
  match eventListeners da with
  | None => []
  | Some m => default [] (m !! eventFlag)
  end.

Definition AddEventListener (eventFlag : EventFlag) (listener : EventListener) : M unit :=
  da <- deref;;
  match eventListeners da with
  | None => panic NilMapWrite
  | Some m =>
    update (set_eventListeners
              (Some (<[eventFlag := listenersOf da eventFlag ++ [listener]]> m)))
  end.

(** [delete] on a nil map does nothing. *)
Definition RemoveListeners (eventFlag : EventFlag) : M unit :=
  da <- deref;;
  match eventListeners da with
  | None => ret tt
  | Some m => update (set_eventListeners (Some (delete eventFlag m)))
  end.

(** *** Emission *)

Definition queueWrite (eventFlag : EventFlag) (color : AnsiColorCode)
    (format : string) (args : list Value) : M unit :=
  if (0 <? String.length format)%nat then
    now <- TimeNow;;
    Enqueue ActWrite (VTime now :: VFlag eventFlag :: VColor color :: VString format :: args)
  else ret tt.

Definition queueWriteError (eventFlag : EventFlag) (color : AnsiColorCode)
    (format : string) (args : list Value) : M unit :=
  if (0 <? String.length format)%nat then
    now <- TimeNow;;
    Enqueue ActWriteError (VTime now :: VFlag eventFlag :: VColor color :: VString format :: args)
  else ret tt.

Definition OnEvent (eventFlag : EventFlag) (state : list Value) : M unit :=
  isNil <- receiverIsNil;;
  if isNil then ret tt
  else
    enabled <- IsEnabled eventFlag;;
    if enabled then
      listening <- HasListener eventFlag;;
      if listening then
        now <- TimeNow;;
        Enqueue ActTriggerListeners (VTime now :: VFlag eventFlag :: state)
      else ret tt
    else ret tt.

Definition Infof (format : string) (args : list Value) : M unit :=
  enabled <- IsEnabled EventInfo;;
  if enabled then
    queueWrite EventInfo ColorWhite format args;;
    listening <- HasListener EventInfo;;
    if listening then
      now <- TimeNow;;
      Enqueue ActTriggerListeners (VTime now :: VFlag EventInfo :: VString format :: args)
    else ret tt
  else ret tt.

Definition Debugf (format : string) (args : list Value) : M unit :=
  enabled <- IsEnabled EventDebug;;
  if enabled then
    queueWrite EventDebug ColorLightYellow format args;;
    listening <- HasListener EventDebug;;
    if listening then
      now <- TimeNow;;
      Enqueue ActTriggerListeners (VTime now :: VFlag EventDebug :: VString format :: args)
    else ret tt
  else ret tt.

(** [Warningf], [Errorf], [Fatalf] and the six methods after them call
    [Enqueue(da.triggerListeners, []interface{}{...})] with no [...] after
    the slice: the queue receives ONE argument, the slice itself.  [None]
    is the nil error. *)
Definition Warningf (format : string) (args : list Value) : M (option GoError) :=
  let err := fmt_Errorf format args in
  enabled <- IsEnabled EventWarning;;
  (if enabled then
     queueWriteError EventWarning ColorRed format args;;
     listening <- HasListener EventWarning;;
     if listening then
       now <- TimeNow;;
       Enqueue ActTriggerListeners [VSlice [VTime now; VFlag EventWarning; VError err]]
     else ret tt
   else ret tt);;
  ret (Some err).

Definition Warning (err : option GoError) : M (option GoError) :=
  match err with
  | Some e =>
    enabled <- IsEnabled EventWarning;;
    if enabled then
      queueWriteError EventWarning ColorRed (Sprintf "%+v" [VError e]) [];;
      listening <- HasListener EventWarning;;
      if listening then
        now <- TimeNow;;
        Enqueue ActTriggerListeners
          [VSlice [VTime now; VFlag EventWarning; VError e]]
      else ret tt
    else ret tt
  | None => ret tt
  end;;
  ret err.

Definition WarningWithReq (err : option GoError) (req : option Request) : M (option GoError) :=
  match err with
  | Some e =>
    enabled <- IsEnabled EventWarning;;
    if enabled then
      queueWriteError EventWarning ColorRed (Sprintf "%+v" [VError e]) [];;
      listening <- HasListener EventWarning;;
      if listening then
        now <- TimeNow;;
        Enqueue ActTriggerListeners
          [VSlice [VTime now; VFlag EventWarning; VError e; VRequest req]]
      else ret tt
    else ret tt
  | None => ret tt
  end;;
  ret err.

Definition Errorf (format : string) (args : list Value) : M (option GoError) :=
  let err := fmt_Errorf format args in
  enabled <- IsEnabled EventError;;
  (if enabled then
     queueWriteError EventError ColorRed format args;;
     listening <- HasListener EventError;;
     if listening then
       now <- TimeNow;;
       Enqueue ActTriggerListeners [VSlice [VTime now; VFlag EventError; VError err]]
     else ret tt
   else ret tt);;
  ret (Some err).

Definition Error (err : option GoError) : M (option GoError) :=
  match err with
  | Some e =>
    enabled <- IsEnabled EventError;;
    if enabled then
      queueWriteError EventError ColorRed (Sprintf "%+v" [VError e]) [];;
      listening <- HasListener EventError;;
      if listening then
        now <- TimeNow;;
        Enqueue ActTriggerListeners
          [VSlice [VTime now; VFlag EventError; VError e]]
      else ret tt
    else ret tt
  | None => ret tt
  end;;
  ret err.

Definition ErrorWithReq (err : option GoError) (req : option Request) : M (option GoError) :=
  match err with
  | Some e =>
    enabled <- IsEnabled EventError;;
    if enabled then
      queueWriteError EventError ColorRed (Sprintf "%+v" [VError e]) [];;
      listening <- HasListener EventError;;
      if listening then
        now <- TimeNow;;
        Enqueue ActTriggerListeners
          [VSlice [VTime now; VFlag EventError; VError e; VRequest req]]
      else ret tt
    else ret tt
  | None => ret tt
  end;;
  ret err.

Definition Fatalf (format : string) (args : list Value) : M (option GoError) :=
  let err := fmt_Errorf format args in
  enabled <- IsEnabled EventFatalError;;
  (if enabled then
     queueWriteError EventFatalError ColorRed format args;;
     listening <- HasListener EventFatalError;;
     if listening then
       now <- TimeNow;;
       Enqueue ActTriggerListeners [VSlice [VTime now; VFlag EventFatalError; VError err]]
     else ret tt
   else ret tt);;
  ret (Some err).

Definition Fatal (err : option GoError) : M (option GoError) :=
  match err with
  | Some e =>
    enabled <- IsEnabled EventFatalError;;
    if enabled then
      queueWriteError EventFatalError ColorRed (Sprintf "%+v" [VError e]) [];;
      listening <- HasListener EventFatalError;;
      if listening then
        now <- TimeNow;;
        Enqueue ActTriggerListeners
          [VSlice [VTime now; VFlag EventFatalError; VError e]]
      else ret tt
    else ret tt
  | None => ret tt
  end;;
  ret err.

Definition FatalWithReq (err : option GoError) (req : option Request) : M (option GoError) :=
  match err with
  | Some e =>
    enabled <- IsEnabled EventFatalError;;
    if enabled then
      queueWriteError EventFatalError ColorRed (Sprintf "%+v" [VError e]) [];;
      listening <- HasListener EventFatalError;;
      if listening then
        now <- TimeNow;;
        Enqueue ActTriggerListeners
          [VSlice [VTime now; VFlag EventFatalError; VError e; VRequest req]]
      else ret tt
    else ret tt
  | None => ret tt
  end;;
  ret err.

(** *** What a worker runs *)

(** The loop [for x := 0; x < len(listeners); x++]: [remaining] is
    [len(listeners) - x]. *)
Fixpoint listenersLoop (da : Agent) (timeSource : TimeSource) (eventFlag : EventFlag)
    (state : list Value) (listeners : list EventListener)
    (remaining x : nat) (w : W) : outcome W :=
  match remaining with
  | O => Returns w
  | S remaining' =>
    match listeners !! x with
    | Some listener =>
      w' ← listener (writer da) timeSource eventFlag state w;
      listenersLoop da timeSource eventFlag state listeners remaining' (S x) w'
    | None => Panics IndexOutOfRange
    end
  end.

Definition triggerListeners (da : Agent) (actionState : list Value) (w : W)
    : outcome (W * option GoError) :=
  if (length actionState <? 2)%nat then Returns (w, None)
  else
    a0 ← index actionState 0;
    match stateAsTimeSource a0 with
    | inr err => Returns (w, Some err)
    | inl timeSource =>
      a1 ← index actionState 1;
      match stateAsEventFlag a1 with
      | inr err => Returns (w, Some err)
      | inl eventFlag =>
        let listeners := listenersOf da eventFlag in
        w' ← listenersLoop da timeSource eventFlag (drop 2 actionState)
               listeners (length listeners) 0 w;
        Returns (w', None)
      end
    end.

Definition writeWithOutput (da : Agent)
    (output : TimeSource -> string -> list Value -> W -> W * option GoError)
    (actionState : list Value) (w : W) : outcome (W * option GoError) :=
  if (length actionState <? 4)%nat then Returns (w, None)
  else
    a0 ← index actionState 0;
    match stateAsTimeSource a0 with
    | inr err => Returns (w, Some err)
    | inl timeSource =>
      a1 ← index actionState 1;
      match stateAsEventFlag a1 with
      | inr err => Returns (w, Some err)
      | inl eventFlag =>
        a2 ← index actionState 2;
        match stateAsAnsiColorCode a2 with
        | inr err => Returns (w, Some err)
        | inl labelColor =>
          a3 ← index actionState 3;
          match stateAsString a3 with
          | inr err => Returns (w, Some err)
          | inl format =>
            Returns (output timeSource "%s %s"
                       [VString (Colorize (writer da) eventFlag labelColor);
                        VString (Sprintf format (drop 4 actionState))] w)
          end
        end
      end
    end.

Definition write (da : Agent) := writeWithOutput da (PrintfWithTimeSource (writer da)).
Definition writeError (da : Agent) := writeWithOutput da (ErrorfWithTimeSource (writer da)).

(** The worker's call [action(args...)] on the agent as it is then. *)
Definition runTask (da : Agent) (t : Task) (w : W) : outcome (W * option GoError) :=
  match action t with
  | ActTriggerListeners => triggerListeners da (args t) w
  | ActWrite => write da (args t) w
  | ActWriteError => writeError da (args t) w
  end.


(** *** Observations used by the statements *)

(** What [IsEnabled] and [HasListener] answer in a process. *)
Definition isEnabled (p : Process) (eventFlag : EventFlag) : bool :=
  match this p with
  | Some da => efs_IsEnabled (events da) eventFlag
  | None => false
  end.

Definition hasListener (p : Process) (eventFlag : EventFlag) : bool :=
  match this p with
  | Some da => (0 <? length (listenersOf da eventFlag))%nat
  | None => false
  end.

(** The process after one reading of the clock and one [Enqueue]. *)
Definition tick (p : Process) : Process := mkProcess (this p) (S (ticks p)).

Definition enqueued (t : Task) (p : Process) : Process :=
  match this p with
  | Some da =>
    mkProcess (Some (set_eventQueue (fst (Queue_Enqueue (eventQueue da) t)) da)) (ticks p)
  | None => p
  end.

(** Each listener called once, first to last, with the same arguments:
    what the spec says of a trigger, for comparison with the loop of
    [triggerListeners]. *)
Fixpoint invokeInOrder (listeners : list EventListener) (writer : Logger)
    (ts : TimeSource) (eventFlag : EventFlag) (state : list Value) (w : W)
    : outcome W :=
  match listeners with
  | [] => Returns w
  | listener :: rest =>
    w' ← listener writer ts eventFlag state w;
    invokeInOrder rest writer ts eventFlag state w'
  end.

(** A task that goes to the writer. *)
Definition isWriteTask (t : Task) : bool :=
  match action t with
  | ActWrite | ActWriteError => true
  | ActTriggerListeners => false
  end.

(** The body that [Infof] and [Debugf] share, up to flag and colour. *)
Definition emitf (eventFlag : EventFlag) (color : AnsiColorCode)
    (format : string) (args : list Value) : M unit :=
  enabled <- IsEnabled eventFlag;;
  if enabled then
    queueWrite eventFlag color format args;;
    listening <- HasListener eventFlag;;
    if listening then
      now <- TimeNow;;
      Enqueue ActTriggerListeners (VTime now :: VFlag eventFlag :: VString format :: args)
    else ret tt
  else ret tt.

(** The body that [Warningf], [Errorf] and [Fatalf] share, up to the flag. *)
Definition emitErrorf (eventFlag : EventFlag) (format : string)
    (args : list Value) : M (option GoError) :=
  let err := fmt_Errorf format args in
  enabled <- IsEnabled eventFlag;;
  (if enabled then
     queueWriteError eventFlag ColorRed format args;;
     listening <- HasListener eventFlag;;
     if listening then
       now <- TimeNow;;
       Enqueue ActTriggerListeners [VSlice [VTime now; VFlag eventFlag; VError err]]
     else ret tt
   else ret tt);;
  ret (Some err).

(** The body that [Warning], [Error], [Fatal] and, with [extra = [req]],
    their [WithReq] variants share. *)
Definition emitError (eventFlag : EventFlag) (err : option GoError)
    (extra : list Value) : M (option GoError) :=
  match err with
  | Some e =>
    enabled <- IsEnabled eventFlag;;
    if enabled then
      queueWriteError eventFlag ColorRed (Sprintf "%+v" [VError e]) [];;
      listening <- HasListener eventFlag;;
      if listening then
        now <- TimeNow;;
        Enqueue ActTriggerListeners
          [VSlice (VTime now :: VFlag eventFlag :: VError e :: extra)]
      else ret tt
    else ret tt
  | None => ret tt
  end;;
  ret err.

(** The trigger task of [OnEvent], [Infof] and [Debugf]: spread. *)
Definition spreadTrigger (now : TimeSource) (eventFlag : EventFlag)
    (state : list Value) : Task :=
  mkTask ActTriggerListeners (VTime now :: VFlag eventFlag :: state).

(** The trigger task of the error methods: one slice argument. *)
Definition sliceTrigger (now : TimeSource) (eventFlag : EventFlag)
    (state : list Value) : Task :=
  mkTask ActTriggerListeners [VSlice (VTime now :: VFlag eventFlag :: state)].

(** One worker running tasks first to last, their errors dropped. *)
Fixpoint runTasks (da : Agent) (tasks : list Task) (w : W) : outcome W :=
  match tasks with
  | [] => Returns w
  | t :: rest =>
    r ← runTask da t w;
    runTasks da rest (fst r)
  end.

(** *** The registry lock *)

(** What a method does to the registry and to [eventListenersLock], in
    program order. *)
Inductive RegistryOp :=
| OpLock
| OpUnlock
| OpRead (eventFlag : EventFlag)
| OpAppend (eventFlag : EventFlag) (listener : EventListener)
| OpDelete (eventFlag : EventFlag).

Definition AddEventListener_ops (eventFlag : EventFlag) (listener : EventListener)
    : list RegistryOp :=
  [OpLock; OpAppend eventFlag listener; OpUnlock].

Definition RemoveListeners_ops (eventFlag : EventFlag) : list RegistryOp :=
  [OpDelete eventFlag].

Definition triggerListeners_ops (eventFlag : EventFlag) : list RegistryOp :=
  [OpLock; OpRead eventFlag; OpUnlock].

Definition applyOp (m : gmap string (list EventListener)) (op : RegistryOp)
    : gmap string (list EventListener) :=
  match op with
  | OpAppend eventFlag listener =>
    <[eventFlag := default [] (m !! eventFlag) ++ [listener]]> m
  | OpDelete eventFlag => delete eventFlag m
  | OpLock | OpUnlock | OpRead _ => m
  end.

(** Every access to the registry happens with the lock held; [held] says
    whether the caller holds it at the start. *)
Fixpoint lockDisciplined (held : bool) (ops : list RegistryOp) : bool :=
  match ops with
  | [] => true
  | OpLock :: rest => lockDisciplined true rest
  | OpUnlock :: rest => lockDisciplined false rest
  | (OpRead _ | OpAppend _ _ | OpDelete _) :: rest => held && lockDisciplined held rest
  end.

(** *** Shutdown *)

(** [DefaultAgentQueueWorkers]. *)
Definition DefaultAgentQueueWorkers : nat := 4.

(** A call of the emission API from some goroutine. *)
Inductive Emission :=
| CallOnEvent (eventFlag : EventFlag) (state : list Value)
| CallInfof (format : string) (args : list Value)
| CallDebugf (format : string) (args : list Value)
| CallWarningf (format : string) (args : list Value)
| CallErrorf (format : string) (args : list Value)
| CallFatalf (format : string) (args : list Value)
| CallWarning (err : option GoError)
| CallWarningWithReq (err : option GoError) (req : option Request)
| CallError (err : option GoError)
| CallErrorWithReq (err : option GoError) (req : option Request)
| CallFatal (err : option GoError)
| CallFatalWithReq (err : option GoError) (req : option Request).

Definition callEmission (e : Emission) : M unit :=
  match e with
  | CallOnEvent eventFlag state => OnEvent eventFlag state
  | CallInfof format args => Infof format args
  | CallDebugf format args => Debugf format args
  | CallWarningf format args => Warningf format args;; ret tt
  | CallErrorf format args => Errorf format args;; ret tt
  | CallFatalf format args => Fatalf format args;; ret tt
  | CallWarning err => Warning err;; ret tt
  | CallWarningWithReq err req => WarningWithReq err req;; ret tt
  | CallError err => Error err;; ret tt
  | CallErrorWithReq err req => ErrorWithReq err req;; ret tt
  | CallFatal err => Fatal err;; ret tt
  | CallFatalWithReq err req => FatalWithReq err req;; ret tt
  end.

(** The tasks waiting in the agent's queue. *)
Definition pending (p : Process) : list Task :=
  match this p with
  | Some da => work (eventQueue da)
  | None => []
  end.

(** Where a call of [Drain] (or, from [AtClose] on, of [Close]) stands. *)
Inductive DrainPc :=
| AtSetVerbosity
| AtPoll
| AtClose
| InClose
| DrainReturned (err : option GoError)
| DrainPanicked (why : PanicKind).

(** The agent with its workers: [inflight] are the tasks a worker has
    taken and not finished, [executed] those whose call has finished. *)
Record System := mkSystem {
  proc : Process;
  inflight : list Task;
  executed : list Task;
  drain : DrainPc
}.

Definition set_drain (pc : DrainPc) (s : System) : System :=
  mkSystem (proc s) (inflight s) (executed s) pc.
Definition set_proc (p : Process) (s : System) : System :=
  mkSystem p (inflight s) (executed s) (drain s).

(** One step of the goroutine that called [Drain]; [None] when it waits
    or has finished.  Inside [Queue.Close] it waits until the workers have
    emptied the buffer and exited (spec, 4.2). *)
Definition drainStep (s : System) : option System :=
  match drain s with
  | AtSetVerbosity =>
    match SetVerbosity (Some NewEventFlagSetNone) (proc s) with
    | Returns (_, p') => Some (set_drain AtPoll (set_proc p' s))
    | Panics why => Some (set_drain (DrainPanicked why) s)
    end
  | AtPoll =>
    match deref (proc s) with
    | Returns (da, _) =>
      if (0 <? Queue_Len (eventQueue da))%nat then Some s
      else Some (set_drain AtClose s)
    | Panics why => Some (set_drain (DrainPanicked why) s)
    end
  | AtClose =>
    match (da <- deref;;
           update (set_eventQueue (fst (Queue_Close (eventQueue da))))) (proc s) with
    | Returns (_, p') => Some (set_drain InClose (set_proc p' s))
    | Panics why => Some (set_drain (DrainPanicked why) s)
    end
  | InClose =>
    match pending (proc s), inflight s with
    | [], [] => Some (set_drain (DrainReturned None) s)
    | _, _ => None
    end
  | DrainReturned _ | DrainPanicked _ => None
  end.

Inductive step : System -> System -> Prop :=
| step_drain s s' :
    drainStep s = Some s' ->
    step s s'
| step_worker_take s da t rest :
    this (proc s) = Some da ->
    work (eventQueue da) = t :: rest ->
    length (inflight s) < DefaultAgentQueueWorkers ->
    step s (mkSystem
              (mkProcess (Some (set_eventQueue (mkQueue rest (closed (eventQueue da))) da))
                         (ticks (proc s)))
              (inflight s ++ [t]) (executed s) (drain s))
| step_worker_finish s before t after :
    inflight s = before ++ t :: after ->
    step s (mkSystem (proc s) (before ++ after) (executed s ++ [t]) (drain s))
| step_emit s e r p' :
    callEmission e (proc s) = Returns (r, p') ->
    step s (set_proc p' s).

Definition steps : System -> System -> Prop := rtc step.

(** [grows p p']: from [p] to [p'] the agent has changed at most by tasks
    added at the end of an open queue. *)
Definition grows (p p' : Process) : Prop :=
  match this p, this p' with
  | Some da, Some da' =>
    writer da' = writer da /\ events da' = events da /\
    eventListeners da' = eventListeners da /\
    closed (eventQueue da') = closed (eventQueue da) /\
    exists added,
      work (eventQueue da') = work (eventQueue da) ++ added /\
      (closed (eventQueue da) = true -> added = [])
  | None, None => True
  | _, _ => False
  end.

(** The tasks the system still has or has run. *)
Definition owed (s : System) : list Task :=
  executed s ++ inflight s ++ pending (proc s).

Definition queueClosed (p : Process) : Prop :=
  match this p with
  | Some da => closed (eventQueue da) = true
  | None => False
  end.

(** Inside and after [Close] the queue is closed; once [Drain] has
    returned nothing is pending or in flight. *)
Definition shutdownInv (s : System) : Prop :=
  match drain s with
  | InClose => queueClosed (proc s)
  | DrainReturned _ => queueClosed (proc s) /\ pending (proc s) = [] /\ inflight s = []
  | _ => True
  end.

(** Past its first statement [Drain] has left no kind enabled. *)
Definition flagsOff (s : System) : Prop :=
  drain s <> AtSetVerbosity -> forall eventFlag, isEnabled (proc s) eventFlag = false.

(** The process with [tasks] as its pending work. *)
Definition set_work (tasks : list Task) (p : Process) : Process :=
  match this p with
  | Some da =>
    mkProcess (Some (set_eventQueue (mkQueue tasks (closed (eventQueue da))) da)) (ticks p)
  | None => p
  end.

(** *** The registry over a run of calls *)

(** Every kind that has an entry has a listener. *)
Definition registryNonEmpty (da : Agent) : Prop :=
  match eventListeners da with
  | Some m => forall (eventFlag : EventFlag) listeners,
      m !! eventFlag = Some listeners -> listeners <> []
  | None => True
  end.

(** A call of the registry API. *)
Inductive RegistryCall :=
| CallAddEventListener (eventFlag : EventFlag) (listener : EventListener)
| CallRemoveListeners (eventFlag : EventFlag).

Definition callRegistry (c : RegistryCall) : M unit :=
  match c with
  | CallAddEventListener eventFlag listener => AddEventListener eventFlag listener
  | CallRemoveListeners eventFlag => RemoveListeners eventFlag
  end.

Fixpoint callsRegistry (cs : list RegistryCall) : M unit :=
  match cs with
  | [] => ret tt
  | c :: rest => callRegistry c;; callsRegistry rest
  end.

(** The kinds of the emission API, call by call; [OnEvent] names its own. *)
Definition flagOf (e : Emission) : EventFlag :=
  match e with
  | CallOnEvent eventFlag _ => eventFlag
  | CallInfof _ _ => EventInfo
  | CallDebugf _ _ => EventDebug
  | CallWarningf _ _ | CallWarning _ | CallWarningWithReq _ _ => EventWarning
  | CallErrorf _ _ | CallError _ | CallErrorWithReq _ _ => EventError
  | CallFatalf _ _ | CallFatal _ | CallFatalWithReq _ _ => EventFatalError
  end.

End Logger.

(** ** The request-body helper *)

(** The constants [ColorGreen] and [RuneSpace] are declared in files that
    are not among the sources; [RuneSpace] stands for the bytes that
    [WriteRune(RuneSpace)] appends. *)
Class HelperPackage := {
  ColorGreen : AnsiColorCode;
  RuneSpace : list Byte.byte
}.

Section Helpers.

Context {W : Type}.
Context `{hpkg : HelperPackage}.

(** Modelled from the spec: the methods of the [Logger] interface (6) that
    the helper calls besides [Colorize].  [GetBuffer] hands out the pooled
    buffer with whatever it holds, [PutBuffer] takes it back as the
    helper left it, [Write] sends bytes to the output. *)
Record LoggerBuffers := mkLoggerBuffers {
  Write : list Byte.byte -> W -> W * option GoError;
  GetBuffer : W -> list Byte.byte * W;
  PutBuffer : list Byte.byte -> W -> W
}.

(** The buffer methods of each writer. *)
Variable buffersOf : @Logger W -> LoggerBuffers.

(** [WriteRequestBody]: the deferred [PutBuffer] runs after the [Write]. *)
Definition WriteRequestBody (writer : @Logger W) (body : list Byte.byte) (w : W) : W :=
  let (buffer, w) := GetBuffer (buffersOf writer) w in
  let buffer := buffer ++ String.list_byte_of_string (Colorize writer "Request Body" ColorGreen) in
  let buffer := buffer ++ RuneSpace in
  let buffer := buffer ++ body in
  let (w, _) := Write (buffersOf writer) buffer w in
  PutBuffer (buffersOf writer) buffer w.

(** The callback that the example's [main] registers for request bodies. *)
Definition bodyCallback : @RequestBodyListener W :=
  fun writer _ body => WriteRequestBody writer body.

End Helpers.

(** ** A concrete process, for evaluation *)

(** A world that records, line by line, what the writer printed and what
    the callbacks were called with. *)
Definition demoPackage : Package := {|
  EventInfo := "Info";
  EventDebug := "Debug";
  EventWarning := "Warning";
  EventError := "Error";
  EventFatalError := "Fatal Error";
  ColorWhite := "97";
  ColorLightYellow := "93";
  ColorRed := "31";
  Sprintf := fun format _ => format;
  clock := fun n => (1000 + Z.of_nat n)%Z
|}.

Definition demoWriter : @Logger (list string) := {|
  PrintfWithTimeSource := fun _ _ _ w => (w ++ ["stdout"], None);
  ErrorfWithTimeSource := fun _ _ _ w => (w ++ ["stderr"], None);
  Colorize := fun text _ => text
|}.

Definition recordError : @ErrorListener (list string) :=
  fun _ _ err w => w ++ [Message err].

Definition recordRequest : @RequestListener (list string) :=
  fun _ _ _ _ _ _ w => w ++ ["request complete"].

Definition recordAny (name : string) : @EventListener (list string) :=
  fun _ _ _ _ w => Returns (w ++ [name]).

(** An agent with every kind enabled and one error listener. *)
Definition demoAgent : @Agent (list string) :=
  mkAgent demoWriter (Some NewEventFlagSetAll)
    (Some {[ "Error" := [NewErrorListener recordError] ]})
    (mkQueue [] false).

Definition demoProcess : @Process (list string) := mkProcess (Some demoAgent) 0.

(** [Drain] has just been called with one task pending and one in flight. *)
Definition demoPendingTask : Task :=
  mkTask ActTriggerListeners [VTime 990; VFlag "Error"; VError (errorString "disk full")].
Definition demoInflightTask : Task :=
  mkTask ActWrite [VTime 980; VFlag "Info"; VColor "97"; VString "started"].

Definition demoSystem : @System (list string) :=
  mkSystem (mkProcess (Some (set_eventQueue (mkQueue [demoPendingTask] false) demoAgent)) 7)
    [demoInflightTask] [] AtSetVerbosity.

Definition demoSystemDrained : @System (list string) :=
  mkSystem
    (mkProcess
       (Some (mkAgent demoWriter (Some NewEventFlagSetNone)
                (Some {[ "Error" := [NewErrorListener recordError] ]})
                (mkQueue [] true))) 7)
    [] [demoInflightTask; demoPendingTask] (DrainReturned None).

(** A writer whose pool hands out an empty buffer and whose [Write]
    records the bytes as one line. *)
Definition demoHelperPackage : HelperPackage := {|
  ColorGreen := "32";
  RuneSpace := String.list_byte_of_string " "
|}.

Definition demoBuffers : @LoggerBuffers (list string) := {|
  Write := fun bytes w => (w ++ [String.string_of_list_byte bytes], None);
  GetBuffer := fun w => ([], w);
  PutBuffer := fun _ w => w
|}.

Definition demoRequest : Request := mkRequest "GET" "/status" "10.0.0.7".

(** An agent whose registry is the nil map, as in a zero [Agent] value. *)
Definition demoZeroAgent : @Agent (list string) :=
  mkAgent demoWriter (Some NewEventFlagSetAll) None (mkQueue [] false).

(** The process before [SetDefault]: every receiver is nil. *)
Definition nilProcess {W} : @Process W := mkProcess None 0.

(** ** Properties *)

Section Properties.

Context {W : Type}.
Context `{pkg : Package}.

Implicit Types (p : @Process W) (da : @Agent W) (w : W).

(** *** Running the monad *)

Lemma IsEnabled_run p eventFlag :
  IsEnabled eventFlag p = Returns (isEnabled p eventFlag, p).
Proof. by destruct p as [[da|] n]. Qed.

Lemma HasListener_run p eventFlag :
  HasListener eventFlag p = Returns (hasListener p eventFlag, p).
Proof.
  destruct p as [[da|] n]; [|done].
  unfold HasListener, hasListener, listenersOf, bind; simpl.
  destruct (eventListeners da) as [m|]; [|done].
  by destruct (m !! eventFlag).
Qed.

Lemma isEnabled_receiver p eventFlag :
  isEnabled p eventFlag = true -> exists da, this p = Some da.
Proof. unfold isEnabled. destruct (this p); [eauto|done]. Qed.

Lemma Enqueue_run p da act argv :
  this p = Some da ->
  Enqueue act argv p = Returns (tt, enqueued (mkTask act argv) p).
Proof. destruct p as [r n]; simpl; intros ->. done. Qed.

Lemma pending_enqueued_open p da t :
  this p = Some da -> closed (eventQueue da) = false ->
  pending (enqueued t p) = pending p ++ [t].
Proof.
  destruct p as [r n]; simpl; intros -> Hopen.
  unfold pending, enqueued, Queue_Enqueue; simpl. by rewrite Hopen.
Qed.

Lemma pending_tick p : pending (tick p) = pending p.
Proof. done. Qed.


Lemma hasListener_enqueued p t eventFlag :
  hasListener (enqueued t p) eventFlag = hasListener p eventFlag.
Proof. by destruct p as [[da|] n]. Qed.

Lemma isEnabled_enqueued p t eventFlag :
  isEnabled (enqueued t p) eventFlag = isEnabled p eventFlag.
Proof. by destruct p as [[da|] n]. Qed.

(** Unfolds a method down to the state it reads. *)
Ltac run_method :=
  unfold OnEvent, Infof, Debugf, Warningf, Errorf, Fatalf,
    Warning, WarningWithReq, Error, ErrorWithReq, Fatal, FatalWithReq,
    emitf, emitErrorf, emitError, queueWrite, queueWriteError,
    IsEnabled, HasListener, Enqueue, TimeNow, SetVerbosity,
    bind, ret, receiverIsNil, deref, update, panic;
  simpl.

Lemma queueWrite_run p da eventFlag color format argv :
  this p = Some da ->
  queueWrite eventFlag color format argv p =
  Returns (tt,
    if (0 <? String.length format)%nat
    then enqueued (mkTask ActWrite
                     (VTime (clock (ticks p)) :: VFlag eventFlag :: VColor color
                      :: VString format :: argv)) (tick p)
    else p).
Proof.
  destruct p as [r n]; simpl; intros ->. run_method.
  by destruct (0 <? String.length format)%nat.
Qed.

Lemma queueWriteError_run p da eventFlag color format argv :
  this p = Some da ->
  queueWriteError eventFlag color format argv p =
  Returns (tt,
    if (0 <? String.length format)%nat
    then enqueued (mkTask ActWriteError
                     (VTime (clock (ticks p)) :: VFlag eventFlag :: VColor color
                      :: VString format :: argv)) (tick p)
    else p).
Proof.
  destruct p as [r n]; simpl; intros ->. run_method.
  by destruct (0 <? String.length format)%nat.
Qed.

Lemma OnEvent_run p eventFlag state :
  OnEvent eventFlag state p =
  Returns (tt,
    if isEnabled p eventFlag && hasListener p eventFlag
    then enqueued (spreadTrigger (clock (ticks p)) eventFlag state) (tick p)
    else p).
Proof.
  destruct p as [[da|] n]; [|done].
  unfold OnEvent, bind at 1; simpl.
  unfold bind at 1. rewrite IsEnabled_run.
  destruct (isEnabled _ _); [|done]. simpl.
  unfold bind at 1. rewrite HasListener_run.
  destruct (hasListener _ _); done.
Qed.

Lemma emitf_run p eventFlag color format argv :
  emitf eventFlag color format argv p =
  Returns (tt,
    if isEnabled p eventFlag then
      let p1 := if (0 <? String.length format)%nat
                then enqueued (mkTask ActWrite
                       (VTime (clock (ticks p)) :: VFlag eventFlag :: VColor color
                        :: VString format :: argv)) (tick p)
                else p in
      if hasListener p eventFlag
      then enqueued (spreadTrigger (clock (ticks p1)) eventFlag (VString format :: argv))
             (tick p1)
      else p1
    else p).
Proof.
  unfold emitf, bind at 1. rewrite IsEnabled_run.
  destruct (isEnabled p eventFlag) eqn:Hen; [|done].
  destruct (isEnabled_receiver _ _ Hen) as [da Hda].
  unfold bind at 1. rewrite (queueWrite_run _ da) by done.
  set (p1 := if (0 <? String.length format)%nat then _ else p).
  assert (Hl : hasListener p1 eventFlag = hasListener p eventFlag).
  { subst p1. destruct (0 <? String.length format)%nat; [|done].
    by rewrite hasListener_enqueued. }
  unfold bind at 1. rewrite HasListener_run, Hl.
  destruct (hasListener p eventFlag); [|done].
  assert (exists da1, this p1 = Some da1) as [da1 Hda1].
  { subst p1. destruct (0 <? String.length format)%nat; [|eauto].
    destruct p as [r n]; simpl in *; subst; simpl; eauto. }
  destruct p1 as [r1 n1]; simpl in *; subst. done.
Qed.

Lemma emitErrorf_run p eventFlag format argv :
  emitErrorf eventFlag format argv p =
  Returns (Some (fmt_Errorf format argv),
    if isEnabled p eventFlag then
      let p1 := if (0 <? String.length format)%nat
                then enqueued (mkTask ActWriteError
                       (VTime (clock (ticks p)) :: VFlag eventFlag :: VColor ColorRed
                        :: VString format :: argv)) (tick p)
                else p in
      if hasListener p eventFlag
      then enqueued (sliceTrigger (clock (ticks p1)) eventFlag
                       [VError (fmt_Errorf format argv)]) (tick p1)
      else p1
    else p).
Proof.
  unfold emitErrorf, bind at 1. unfold bind at 1. rewrite IsEnabled_run.
  destruct (isEnabled p eventFlag) eqn:Hen; [|done].
  destruct (isEnabled_receiver _ _ Hen) as [da Hda].
  unfold bind at 1. rewrite (queueWriteError_run _ da) by done.
  set (p1 := if (0 <? String.length format)%nat then _ else p).
  assert (Hl : hasListener p1 eventFlag = hasListener p eventFlag).
  { subst p1. destruct (0 <? String.length format)%nat; [|done].
    by rewrite hasListener_enqueued. }
  unfold bind at 1. rewrite HasListener_run, Hl.
  destruct (hasListener p eventFlag); [|done].
  assert (exists da1, this p1 = Some da1) as [da1 Hda1].
  { subst p1. destruct (0 <? String.length format)%nat; [|eauto].
    destruct p as [r n]; simpl in *; subst; simpl; eauto. }
  destruct p1 as [r1 n1]; simpl in *; subst. done.
Qed.

Lemma emitError_run p eventFlag e extra :
  emitError eventFlag (Some e) extra p =
  Returns (Some e,
    if isEnabled p eventFlag then
      let text := Sprintf "%+v" [VError e] in
      let p1 := if (0 <? String.length text)%nat
                then enqueued (mkTask ActWriteError
                       [VTime (clock (ticks p)); VFlag eventFlag; VColor ColorRed;
                        VString text]) (tick p)
                else p in
      if hasListener p eventFlag
      then enqueued (sliceTrigger (clock (ticks p1)) eventFlag (VError e :: extra))
             (tick p1)
      else p1
    else p).
Proof.
  unfold emitError, bind at 1. unfold bind at 1. rewrite IsEnabled_run.
  destruct (isEnabled p eventFlag) eqn:Hen; [|done].
  destruct (isEnabled_receiver _ _ Hen) as [da Hda].
  unfold bind at 1. rewrite (queueWriteError_run _ da) by done.
  set (text := Sprintf "%+v" [VError e]).
  set (p1 := if (0 <? String.length text)%nat then _ else p).
  assert (Hl : hasListener p1 eventFlag = hasListener p eventFlag).
  { subst p1. destruct (0 <? String.length text)%nat; [|done].
    by rewrite hasListener_enqueued. }
  unfold bind at 1. rewrite HasListener_run, Hl.
  destruct (hasListener p eventFlag); [|done].
  assert (exists da1, this p1 = Some da1) as [da1 Hda1].
  { subst p1. destruct (0 <? String.length text)%nat; [|eauto].
    destruct p as [r n]; simpl in *; subst; simpl; eauto. }
  destruct p1 as [r1 n1]; simpl in *; subst. done.
Qed.

(** Each method is its family's body at its own flag. *)
Lemma emission_shapes :
  @Infof W pkg = emitf EventInfo ColorWhite /\
  @Debugf W pkg = emitf EventDebug ColorLightYellow /\
  @Warningf W pkg = emitErrorf EventWarning /\
  @Errorf W pkg = emitErrorf EventError /\
  @Fatalf W pkg = emitErrorf EventFatalError /\
  @Warning W pkg = (fun err => emitError EventWarning err []) /\
  @WarningWithReq W pkg = (fun err req => emitError EventWarning err [VRequest req]) /\
  @Error W pkg = (fun err => emitError EventError err []) /\
  @ErrorWithReq W pkg = (fun err req => emitError EventError err [VRequest req]) /\
  @Fatal W pkg = (fun err => emitError EventFatalError err []) /\
  @FatalWithReq W pkg = (fun err req => emitError EventFatalError err [VRequest req]).
Proof. repeat split. Qed.

Ltac to_shape :=
  change (@Infof W pkg) with (@emitf W pkg EventInfo ColorWhite);
  change (@Debugf W pkg) with (@emitf W pkg EventDebug ColorLightYellow);
  change (@Warningf W pkg) with (@emitErrorf W pkg EventWarning);
  change (@Errorf W pkg) with (@emitErrorf W pkg EventError);
  change (@Fatalf W pkg) with (@emitErrorf W pkg EventFatalError);
  change (@Warning W pkg ?err) with (@emitError W pkg EventWarning err []);
  change (@WarningWithReq W pkg ?err ?req)
    with (@emitError W pkg EventWarning err [VRequest req]);
  change (@Error W pkg ?err) with (@emitError W pkg EventError err []);
  change (@ErrorWithReq W pkg ?err ?req)
    with (@emitError W pkg EventError err [VRequest req]);
  change (@Fatal W pkg ?err) with (@emitError W pkg EventFatalError err []);
  change (@FatalWithReq W pkg ?err ?req)
    with (@emitError W pkg EventFatalError err [VRequest req]).

(** *** Nil errors *)

(** C5: [Warning], [WarningWithReq], [Error], [ErrorWithReq], [Fatal] and
    [FatalWithReq] called with a nil error return nil and leave the whole
    process as it was: no write task, no trigger task, no reading of the
    clock. *)
Theorem nil_error_is_noop p (req : option Request) :
  Warning None p = Returns (None, p) /\
  WarningWithReq None req p = Returns (None, p) /\
  Error None p = Returns (None, p) /\
  ErrorWithReq None req p = Returns (None, p) /\
  Fatal None p = Returns (None, p) /\
  FatalWithReq None req p = Returns (None, p).
Proof. repeat split. Qed.

(** *** The error goes back to the caller *)

(** C6: in every process, whatever is enabled and whoever listens,
    [Warningf], [Errorf] and [Fatalf] return a non-nil error whose message
    is the formatted text, and [Warning], [Error] and [Fatal] return the
    error they were given. *)
Theorem error_is_returned p (format : string) (argv : list Value)
    (err : option GoError) :
  (exists p', Warningf format argv p = Returns (Some (errorString (Sprintf format argv)), p')) /\
  (exists p', Errorf format argv p = Returns (Some (errorString (Sprintf format argv)), p')) /\
  (exists p', Fatalf format argv p = Returns (Some (errorString (Sprintf format argv)), p')) /\
  (exists p', Warning err p = Returns (err, p')) /\
  (exists p', Error err p = Returns (err, p')) /\
  (exists p', Fatal err p = Returns (err, p')).
Proof.
  to_shape.
  repeat split; try (rewrite emitErrorf_run; eauto).
  all: destruct err as [e|]; [rewrite emitError_run; eauto | by exists p].
Qed.

(** *** OnEvent *)

(** C7: when [IsEnabled] and [HasListener] both answer true, [OnEvent]
    reads the clock once and makes one [Enqueue] call, of a trigger task
    whose arguments are the instant read, the kind and then the state; on
    an open queue the task becomes the last pending one.  When either
    answers false the process is left exactly as it was. *)
Theorem OnEvent_enqueues_iff_enabled_and_heard p (eventFlag : EventFlag)
    (state : list Value) :
  (IsEnabled eventFlag p = Returns (true, p) ->
   HasListener eventFlag p = Returns (true, p) ->
   exists da,
     let t := mkTask ActTriggerListeners
                (VTime (clock (ticks p)) :: VFlag eventFlag :: state) in
     this p = Some da /\
     OnEvent eventFlag state p =
       Returns (tt, mkProcess
                      (Some (set_eventQueue (fst (Queue_Enqueue (eventQueue da) t)) da))
                      (S (ticks p))) /\
     (closed (eventQueue da) = false ->
      fst (Queue_Enqueue (eventQueue da) t) = mkQueue (work (eventQueue da) ++ [t]) false)) /\
  (IsEnabled eventFlag p = Returns (false, p) \/
   HasListener eventFlag p = Returns (false, p) ->
   OnEvent eventFlag state p = Returns (tt, p)).
Proof.
  rewrite IsEnabled_run, HasListener_run, OnEvent_run. split.
  - intros Hen Hl. injection Hen as Hen. injection Hl as Hl.
    destruct (isEnabled_receiver _ _ Hen) as [da Hda]. exists da.
    rewrite Hen, Hl. destruct p as [r n]; simpl in *; subst.
    repeat split. intros Hopen. unfold Queue_Enqueue. by rewrite Hopen.
  - intros [H|H]; injection H as ->; [done|].
    by rewrite andb_false_r.
Qed.

(** *** Empty formats *)

Lemma enqueued_trigger_adds (q : @Process W) (t : Task) :
  isWriteTask t = false ->
  exists added, pending (enqueued t (tick q)) = pending q ++ added /\
                Forall (fun t => isWriteTask t = false) added.
Proof.
  destruct q as [[da|] n]; intros Ht; [|by exists []].
  unfold pending, enqueued, Queue_Enqueue; simpl.
  destruct (closed (eventQueue da)); simpl.
  - exists []. by rewrite app_nil_r.
  - exists [t]. split; [done|]. by constructor.
Qed.

Lemma emitf_empty p eventFlag color argv :
  exists p' added,
    emitf eventFlag color "" argv p = Returns (tt, p') /\
    pending p' = pending p ++ added /\
    Forall (fun t => isWriteTask t = false) added.
Proof.
  rewrite emitf_run; simpl.
  destruct (isEnabled p eventFlag), (hasListener p eventFlag);
    try (exists p, []; rewrite app_nil_r; by repeat split).
  edestruct (enqueued_trigger_adds p) as [added [Hp Hall]]; [|eauto]. done.
Qed.

Lemma emitErrorf_empty p eventFlag argv :
  exists p' added,
    bind (emitErrorf eventFlag "" argv) (fun _ => ret tt) p = Returns (tt, p') /\
    pending p' = pending p ++ added /\
    Forall (fun t => isWriteTask t = false) added.
Proof.
  unfold bind at 1. rewrite emitErrorf_run; simpl.
  destruct (isEnabled p eventFlag), (hasListener p eventFlag);
    try (exists p, []; rewrite app_nil_r; by repeat split).
  edestruct (enqueued_trigger_adds p) as [added [Hp Hall]]; [|eauto]. done.
Qed.

(** C10: [queueWrite] and [queueWriteError] do nothing for an empty format
    and enqueue for every other one; so [Infof], [Debugf], [Warningf],
    [Errorf] and [Fatalf] with an empty format add no write task to the
    queue, whatever is enabled: what they add, if anything, are trigger
    tasks. *)
Theorem empty_format_enqueues_no_write p (eventFlag : EventFlag)
    (color : AnsiColorCode) (argv : list Value) :
  queueWrite eventFlag color "" argv p = Returns (tt, p) /\
  queueWriteError eventFlag color "" argv p = Returns (tt, p) /\
  (forall format da, format <> "" -> this p = Some da ->
     queueWrite eventFlag color format argv p =
       Returns (tt, enqueued (mkTask ActWrite
                  (VTime (clock (ticks p)) :: VFlag eventFlag :: VColor color
                   :: VString format :: argv)) (tick p)) /\
     queueWriteError eventFlag color format argv p =
       Returns (tt, enqueued (mkTask ActWriteError
                  (VTime (clock (ticks p)) :: VFlag eventFlag :: VColor color
                   :: VString format :: argv)) (tick p))) /\
  (forall call, call ∈ [CallInfof "" argv; CallDebugf "" argv; CallWarningf "" argv;
                         CallErrorf "" argv; CallFatalf "" argv] ->
     exists p' added,
       callEmission call p = Returns (tt, p') /\
       pending p' = pending p ++ added /\
       Forall (fun t => isWriteTask t = false) added).
Proof.
  split; [done|]. split; [done|]. split.
  - intros format da Hne Hda.
    rewrite (queueWrite_run _ da), (queueWriteError_run _ da) by done.
    destruct format; [done|]. done.
  - intros call Hcall.
    repeat (apply elem_of_cons in Hcall as [->|Hcall]);
      [ .. | by apply elem_of_nil in Hcall ]; simpl.
    + apply emitf_empty.
    + apply emitf_empty.
    + apply emitErrorf_empty.
    + apply emitErrorf_empty.
    + apply emitErrorf_empty.
Qed.

(** *** Dispatch *)

Lemma listenersLoop_in_order da (ts : TimeSource) (eventFlag : EventFlag)
    (state : list Value) (listeners : list EventListener) remaining x w :
  remaining = length listeners - x ->
  listenersLoop da ts eventFlag state listeners remaining x w =
  invokeInOrder (drop x listeners) (writer da) ts eventFlag state w.
Proof.
  revert x w. induction remaining as [|n IH]; intros x w Hn; cbn [listenersLoop].
  - rewrite drop_ge by lia. done.
  - destruct (lookup_lt_is_Some_2 listeners x) as [l Hl]; [lia|].
    unfold EventListener in *. rewrite Hl, (drop_S _ _ _ Hl). cbn [invokeInOrder].
    destruct (l (writer da) ts eventFlag state w) as [w'|why]; [|done].
    apply IH. lia.
Qed.

Lemma triggerListeners_spread da (now : TimeSource) (eventFlag : EventFlag)
    (state : list Value) w :
  triggerListeners da (VTime now :: VFlag eventFlag :: state) w =
  w' ← invokeInOrder (listenersOf da eventFlag) (writer da) now eventFlag state w;
  Returns (w', None).
Proof.
  unfold triggerListeners. simpl.
  rewrite listenersLoop_in_order by lia. done.
Qed.

(** A trigger task with fewer than two arguments calls nobody. *)
Lemma triggerListeners_short da (v : Value) w :
  triggerListeners da [v] w = Returns (w, None).
Proof. done. Qed.

Lemma AddEventListener_appends p da m (eventFlag : EventFlag) (listener : EventListener) :
  this p = Some da -> eventListeners da = Some m ->
  exists da',
    AddEventListener eventFlag listener p = Returns (tt, mkProcess (Some da') (ticks p)) /\
    listenersOf da' eventFlag = listenersOf da eventFlag ++ [listener] /\
    (forall other, other <> eventFlag -> listenersOf da' other = listenersOf da other).
Proof.
  destruct p as [r n]; simpl; intros -> Hm.
  unfold AddEventListener, bind; simpl. rewrite Hm. simpl.
  eexists. split; [reflexivity|]. unfold listenersOf; simpl. rewrite Hm.
  split.
  - by rewrite lookup_insert_eq.
  - intros other Hne. by rewrite lookup_insert_ne.
Qed.

(** C8: the task that a call [OnEvent(kind, state...)] appends to the
    queue, run by a worker on the agent as it is then, calls the listeners
    then registered for the kind one after the other, first registered
    first, each once and each with the agent's writer, the instant read
    when the task was enqueued, the kind and the state exactly as
    [OnEvent] received it. *)
Theorem OnEvent_task_round_trip p p' (t : Task) (eventFlag : EventFlag)
    (state : list Value) da' w :
  OnEvent eventFlag state p = Returns (tt, p') ->
  pending p' = pending p ++ [t] ->
  runTask da' t w =
  w' ← invokeInOrder (listenersOf da' eventFlag) (writer da')
         (clock (ticks p)) eventFlag state w;
  Returns (w', None).
Proof.
  rewrite OnEvent_run. intros Hrun Hpend. injection Hrun as <-.
  assert (Hnot : pending p <> pending p ++ [t]).
  { intros Heq. apply (f_equal length) in Heq. rewrite length_app in Heq.
    simpl in Heq. lia. }
  destruct (isEnabled p eventFlag && hasListener p eventFlag); [|done].
  destruct p as [[da|] n]; [|done].
  unfold pending, enqueued, Queue_Enqueue in Hpend; simpl in Hpend.
  destruct (closed (eventQueue da)); simpl in Hpend; [done|].
  apply app_inv_head in Hpend. injection Hpend as <-.
  apply triggerListeners_spread.
Qed.

(** The trigger task of the error methods carries one argument, so the
    length test of [triggerListeners] returns before any listener runs. *)
Lemma sliceTrigger_calls_nobody da (now : TimeSource) (eventFlag : EventFlag)
    (state : list Value) w :
  runTask da (sliceTrigger now eventFlag state) w = Returns (w, None).
Proof. done. Qed.

(** *** The adapters *)

Lemma NewErrorListener_run (listener : ErrorListener) wr (ts : TimeSource)
    (eventFlag : EventFlag) (state : list Value) w :
  NewErrorListener listener wr ts eventFlag state w =
  match state with
  | VError err :: _ => Returns (listener wr ts err w)
  | _ => Returns w
  end.
Proof. destruct state as [|[] ?]; done. Qed.

Lemma NewRequestStartListener_run (listener : RequestStartListener) wr
    (ts : TimeSource) (eventFlag : EventFlag) (state : list Value) w :
  NewRequestStartListener listener wr ts eventFlag state w =
  match state with
  | VRequest req :: _ => Returns (listener wr ts req w)
  | _ => Returns w
  end.
Proof. destruct state as [|[] ?]; done. Qed.

Lemma NewRequestBodyListener_run (listener : RequestBodyListener) wr
    (ts : TimeSource) (eventFlag : EventFlag) (state : list Value) w :
  NewRequestBodyListener listener wr ts eventFlag state w =
  match state with
  | VBytes body :: _ => Returns (listener wr ts body w)
  | _ => Returns w
  end.
Proof. destruct state as [|[] ?]; done. Qed.

(** [NewRequestListener] tests for three arguments and reads four. *)
Lemma NewRequestListener_run (listener : RequestListener) wr (ts : TimeSource)
    (eventFlag : EventFlag) (state : list Value) w :
  NewRequestListener listener wr ts eventFlag state w =
  match state with
  | VRequest req :: VInt statusCode :: VInt contentLengthBytes :: rest =>
    match rest with
    | [] => Panics IndexOutOfRange
    | VDuration elapsed :: _ =>
      Returns (listener wr ts req statusCode contentLengthBytes elapsed w)
    | _ :: _ => Returns w
    end
  | _ => Returns w
  end.
Proof.
  destruct state as [|s0 [|s1 [|s2 [|s3 rest]]]]; try done.
  - by destruct s0.
  - by destruct s0, s1.
  - by destruct s0, s1, s2.
  - by destruct s0, s1, s2, s3.
Qed.

(** *** Nil receivers *)

(** The methods that test [da == nil], and those that reach the agent
    only through [IsEnabled], leave a nil receiver alone. *)
Lemma guarded_methods_nil_safe (eventFlag : EventFlag) (format : string)
    (argv : list Value) (e : Emission) :
  IsEnabled eventFlag (@nilProcess W) = Returns (false, nilProcess) /\
  HasListener eventFlag (@nilProcess W) = Returns (false, nilProcess) /\
  exists r, callEmission e (@nilProcess W) = Returns (r, nilProcess).
Proof. split; [done|]. split; [done|]. destruct e as [| | | | | |[]|[]|[]|[]|[]|[]]; by eexists. Qed.

(** C3: on a nil receiver [EnableEvent], [DisableEvent], [SetVerbosity],
    [AddEventListener], [RemoveListeners], [Close] and [Drain] panic with a
    nil dereference: none of them tests the receiver before it reads a
    field through it. *)
Theorem unguarded_methods_panic_on_nil (eventFlag : EventFlag)
    (efs : option EventFlagSet) (listener : @EventListener W)
    (inflight executed : list Task) :
  EnableEvent eventFlag (@nilProcess W) = Panics NilDereference /\
  DisableEvent eventFlag (@nilProcess W) = Panics NilDereference /\
  SetVerbosity efs (@nilProcess W) = Panics NilDereference /\
  AddEventListener eventFlag listener nilProcess = Panics NilDereference /\
  RemoveListeners eventFlag (@nilProcess W) = Panics NilDereference /\
  drainStep (mkSystem (@nilProcess W) inflight executed AtClose) =
    Some (mkSystem nilProcess inflight executed (DrainPanicked NilDereference)) /\
  drainStep (mkSystem (@nilProcess W) inflight executed AtSetVerbosity) =
    Some (mkSystem nilProcess inflight executed (DrainPanicked NilDereference)).
Proof. repeat split. Qed.

(** *** The registry lock *)

(** The operation lists are what the methods do to the registry. *)
Lemma registry_ops_refine p da m (eventFlag : EventFlag) (listener : EventListener) :
  this p = Some da -> eventListeners da = Some m ->
  AddEventListener eventFlag listener p =
    Returns (tt, mkProcess
      (Some (set_eventListeners
               (Some (foldl applyOp m (AddEventListener_ops eventFlag listener))) da))
      (ticks p)) /\
  RemoveListeners eventFlag p =
    Returns (tt, mkProcess
      (Some (set_eventListeners
               (Some (foldl applyOp m (RemoveListeners_ops eventFlag))) da))
      (ticks p)) /\
  listenersOf da eventFlag =
    default [] (foldl applyOp m (triggerListeners_ops eventFlag) !! eventFlag).
Proof.
  destruct p as [r n]; simpl; intros -> Hm.
  unfold AddEventListener, RemoveListeners, listenersOf, bind; simpl.
  rewrite Hm. done.
Qed.

(** C4: [AddEventListener] and [triggerListeners] touch the registry with
    [eventListenersLock] held, [RemoveListeners] deletes the kind's entry
    without taking the lock. *)
Theorem RemoveListeners_takes_no_lock (eventFlag : EventFlag)
    (listener : @EventListener W) :
  lockDisciplined false (AddEventListener_ops eventFlag listener) = true /\
  @lockDisciplined W false (triggerListeners_ops eventFlag) = true /\
  @lockDisciplined W false (RemoveListeners_ops eventFlag) = false.
Proof. repeat split. Qed.

(** *** Shutdown *)

Lemma grows_refl p : grows p p.
Proof.
  unfold grows. destruct (this p) as [da|]; [|done].
  repeat split. exists []. by rewrite app_nil_r.
Qed.

Lemma grows_trans p1 p2 p3 : grows p1 p2 -> grows p2 p3 -> grows p1 p3.
Proof.
  unfold grows.
  destruct (this p1) as [d1|], (this p2) as [d2|], (this p3) as [d3|]; try done.
  intros (Hw & He & Hl & Hc & a1 & Ha1 & Hz1) (Hw' & He' & Hl' & Hc' & a2 & Ha2 & Hz2).
  repeat split; try congruence.
  exists (a1 ++ a2). split.
  - by rewrite Ha2, Ha1, app_assoc.
  - intros Hcl. rewrite Hz1 by done. rewrite Hz2 by congruence. done.
Qed.

Lemma grows_enqueued p t : grows p (enqueued t (tick p)).
Proof.
  destruct p as [[da|] n]; [|done].
  unfold grows, enqueued, Queue_Enqueue; simpl.
  destruct (closed (eventQueue da)) eqn:Hc; simpl; repeat split; try done.
  - exists []. by rewrite app_nil_r.
  - exists [t]. done.
Qed.

Lemma grows_enqueued_twice p t1 t2 :
  grows p (enqueued t2 (tick (enqueued t1 (tick p)))).
Proof. eapply grows_trans; apply grows_enqueued. Qed.

Lemma callEmission_grows p e r p' :
  callEmission e p = Returns (r, p') -> grows p p'.
Proof.
  destruct e as [k st|f a|f a|f a|f a|f a|[e|]|[e|] rq|[e|]|[e|] rq|[e|]|[e|] rq];
    cbn [callEmission];
    to_shape;
    rewrite ?OnEvent_run, ?emitf_run;
    try (unfold bind at 1; rewrite ?emitErrorf_run, ?emitError_run);
    unfold emitError, bind, ret; cbv zeta; intros Hrun;
    repeat case_match; simplify_eq;
    auto using grows_refl, grows_enqueued, grows_enqueued_twice.
Qed.

Lemma grows_pending p p' :
  grows p p' -> exists added, pending p' = pending p ++ added.
Proof.
  unfold grows, pending.
  destruct (this p) as [da|], (this p') as [da'|]; try done.
  - intros (_ & _ & _ & _ & added & Ha & _). eauto.
  - by exists [].
Qed.

Lemma grows_closed p p' :
  grows p p' -> queueClosed p -> queueClosed p' /\ pending p' = pending p.
Proof.
  unfold grows, queueClosed, pending.
  destruct (this p) as [da|], (this p') as [da'|]; try done.
  intros (_ & _ & _ & Hc & added & Ha & Hz) Hcl.
  split; [congruence|]. rewrite Ha, Hz by done. by rewrite app_nil_r.
Qed.

(** With no kind enabled an emission call changes nothing. *)
Lemma callEmission_disabled p e :
  (forall eventFlag, isEnabled p eventFlag = false) ->
  exists r, callEmission e p = Returns (r, p).
Proof.
  intros Hoff.
  destruct e as [k st|f a|f a|f a|f a|f a|[e|]|[e|] rq|[e|]|[e|] rq|[e|]|[e|] rq];
    cbn [callEmission];
    to_shape;
    rewrite ?OnEvent_run, ?emitf_run;
    try (unfold bind at 1; rewrite ?emitErrorf_run, ?emitError_run);
    rewrite ?Hoff; cbn [andb]; unfold emitError, bind, ret; eauto.
Qed.

Lemma SetVerbosity_none_disables p p' :
  SetVerbosity (Some NewEventFlagSetNone) p = Returns (tt, p') ->
  (forall eventFlag, isEnabled p' eventFlag = false) /\ pending p' = pending p.
Proof.
  destruct p as [[da|] n]; [|done].
  unfold SetVerbosity, update; simpl. intros H. injection H as <-.
  split; [|done]. intros k. unfold isEnabled; simpl.
  by rewrite bool_decide_eq_false_2 by set_solver.
Qed.

Lemma drainStep_keeps_tasks (s s' : @System W) :
  drainStep s = Some s' ->
  inflight s' = inflight s /\ executed s' = executed s /\
  pending (proc s') = pending (proc s).
Proof.
  unfold drainStep. destruct s as [p infl ex pc]; simpl.
  destruct pc; simpl.
  - destruct (SetVerbosity _ p) as [[[] p']|why] eqn:Hset; intros; simplify_eq; simpl;
      [|done].
    by destruct (SetVerbosity_none_disables _ _ Hset) as [_ ->].
  - destruct p as [[da|] n]; simpl; [|intros; by simplify_eq].
    destruct (0 <? Queue_Len (eventQueue da))%nat; intros; by simplify_eq.
  - destruct p as [[da|] n]; simpl; intros; by simplify_eq.
  - destruct (pending p) eqn:Hp, infl; intros; simplify_eq; simpl. by rewrite Hp.
  - done.
  - done.
Qed.

Lemma step_owed (s s' : @System W) : step s s' -> owed s ⊆+ owed s'.
Proof.
  destruct 1 as [s s' Hd|s da t rest Hda Hwork Hfree|s before t after Hin|s e r p' He];
    unfold owed; simpl.
  - destruct (drainStep_keeps_tasks _ _ Hd) as (-> & -> & ->). done.
  - unfold pending. rewrite Hda, Hwork. by rewrite <- app_assoc.
  - rewrite Hin. apply Permutation_submseteq. solve_Permutation.
  - destruct (grows_pending _ _ (callEmission_grows _ _ _ _ He)) as [added ->].
    rewrite !app_assoc. by apply submseteq_inserts_r.
Qed.

Lemma step_shutdownInv (s s' : @System W) :
  step s s' -> shutdownInv s -> shutdownInv s'.
Proof.
  destruct 1 as [s s' Hd|s da t rest Hda Hwork Hfree|s before t after Hin|s e r p' He];
    unfold shutdownInv; simpl.
  - revert Hd. unfold drainStep. destruct s as [p infl ex pc]; simpl.
    destruct pc; simpl.
    + destruct (SetVerbosity _ p) as [[[] p']|why]; intros; by simplify_eq.
    + destruct p as [[da|] n]; simpl; [|intros; by simplify_eq].
      destruct (0 <? Queue_Len (eventQueue da))%nat; intros; by simplify_eq.
    + destruct p as [[da|] n]; simpl; intros; by simplify_eq.
    + destruct (pending p) eqn:Hp, infl; intros; simplify_eq; simpl. done.
    + done.
    + done.
  - destruct (drain s); try done; unfold queueClosed, pending; rewrite Hda; simpl.
    + done.
    + rewrite Hwork. by intros (_ & ? & _).
  - destruct (drain s); try done. rewrite Hin. intros (_ & _ & ?).
    by destruct before.
  - pose proof (callEmission_grows _ _ _ _ He) as Hg.
    destruct (drain s); try done.
    + intros Hc. by destruct (grows_closed _ _ Hg Hc).
    + intros (Hc & Hp & Hi). destruct (grows_closed _ _ Hg Hc) as [? ->]. done.
Qed.

Lemma grows_isEnabled p p' (eventFlag : EventFlag) :
  grows p p' -> isEnabled p' eventFlag = isEnabled p eventFlag.
Proof.
  unfold grows, isEnabled.
  destruct (this p) as [da|], (this p') as [da'|]; try done.
  by intros (_ & -> & _).
Qed.

Lemma step_flagsOff (s s' : @System W) : step s s' -> flagsOff s -> flagsOff s'.
Proof.
  destruct 1 as [s s' Hd|s da t rest Hda Hwork Hfree|s before t after Hin|s e r p' He];
    unfold flagsOff; simpl.
  - revert Hd. unfold drainStep. destruct s as [p infl ex pc]; simpl.
    destruct pc; simpl.
    + destruct (SetVerbosity _ p) as [[[] p']|why] eqn:Hset; intros; simplify_eq; simpl.
      * by apply (SetVerbosity_none_disables _ _ Hset).
      * destruct p as [[da|] n]; done.
    + destruct p as [[da|] n]; simpl; [|intros; by simplify_eq].
      destruct (0 <? Queue_Len (eventQueue da))%nat; intros; simplify_eq; simpl; auto.
    + destruct p as [[da|] n]; simpl; intros Hd Hoff; simplify_eq; simpl; [|done].
      intros _ k. by apply (Hoff ltac:(done) k).
    + destruct (pending p), infl; intros; simplify_eq; simpl. auto.
    + done.
    + done.
  - intros Hoff Hpc k. specialize (Hoff Hpc k). unfold isEnabled in *.
    by rewrite Hda in Hoff.
  - done.
  - intros Hoff Hpc k.
    rewrite (grows_isEnabled _ _ _ (callEmission_grows _ _ _ _ He)). auto.
Qed.

Lemma steps_invariants (s s' : @System W) :
  steps s s' ->
  owed s ⊆+ owed s' /\ (shutdownInv s -> shutdownInv s') /\ (flagsOff s -> flagsOff s').
Proof.
  induction 1 as [s|s1 s2 s3 Hstep _ (IHo & IHi & IHf)]; [done|].
  split; [|split].
  - etrans; [by apply step_owed|done].
  - intros Hinv. apply IHi. by eapply step_shutdownInv.
  - intros Hinv. apply IHf. by eapply step_flagsOff.
Qed.

(** The workers can always finish what is in flight ... *)
Lemma finish_inflight (p : @Process W) (infl ex : list Task) (pc : DrainPc) :
  steps (mkSystem p infl ex pc) (mkSystem p [] (ex ++ infl) pc).
Proof.
  revert ex. induction infl as [|t rest IH]; intros ex.
  - rewrite app_nil_r. apply rtc_refl.
  - eapply rtc_l.
    + by apply (step_worker_finish (mkSystem p (t :: rest) ex pc) [] t rest).
    + simpl. replace (ex ++ t :: rest) with ((ex ++ [t]) ++ rest)
        by (by rewrite <- app_assoc).
      apply IH.
Qed.

(** ... and take and finish what is pending. *)
Lemma work_off (tasks : list Task) da (n : nat) (ex : list Task) (pc : DrainPc) :
  work (eventQueue da) = tasks ->
  steps (mkSystem (mkProcess (Some da) n) [] ex pc)
        (mkSystem (set_work [] (mkProcess (Some da) n)) [] (ex ++ tasks) pc).
Proof.
  revert da ex. induction tasks as [|t rest IH]; intros da ex Hwork.
  - rewrite app_nil_r. unfold set_work; simpl.
    destruct da as [wr ev ls [wk cl]]; simpl in *; subst. apply rtc_refl.
  - eapply rtc_l.
    { apply (step_worker_take (mkSystem (mkProcess (Some da) n) [] ex pc) da t rest);
        [done|done|]. simpl. unfold DefaultAgentQueueWorkers. lia. }
    simpl. eapply rtc_l.
    { by apply (step_worker_finish (mkSystem _ [t] ex pc) [] t []). }
    simpl.
    replace (ex ++ t :: rest) with ((ex ++ [t]) ++ rest) by (by rewrite <- app_assoc).
    apply (IH (set_eventQueue (mkQueue rest (closed (eventQueue da))) da) (ex ++ [t])).
    done.
Qed.

Lemma Drain_can_return da (n : nat) (infl ex : list Task) :
  exists s,
    steps (mkSystem (mkProcess (Some da) n) infl ex AtSetVerbosity) s /\
    drain s = DrainReturned None /\
    executed s = ex ++ infl ++ work (eventQueue da).
Proof.
  set (da1 := set_events (Some NewEventFlagSetNone) da).
  set (p2 := set_work [] (mkProcess (Some da1) n)).
  set (done := (ex ++ infl) ++ work (eventQueue da1)).
  exists (mkSystem
            (mkProcess (Some (set_eventQueue (mkQueue [] true) da1)) n)
            [] done (DrainReturned None)).
  split; [|split; [done|subst done; simpl; by rewrite <- app_assoc]].
  eapply rtc_l; [by apply step_drain|]. simpl.
  eapply rtc_trans; [apply finish_inflight|].
  eapply rtc_trans; [by apply (work_off (work (eventQueue da1)))|].
  fold done.
  eapply rtc_l; [by apply step_drain|].
  eapply rtc_l; [by apply step_drain|].
  eapply rtc_l; [by apply step_drain|].
  apply rtc_refl.
Qed.

(** C9: [Drain] starts by setting the flag set to "none"; from then on,
    whatever the workers and other callers do meanwhile, no emission call
    changes the queue; from its loop [Drain] goes on to [Close] only when
    no task is pending and sleeps otherwise; whenever it has returned,
    every task that was pending or in flight when it was called has been
    executed, nothing is pending and the queue is closed; and on an agent
    it can always return, the workers taking and finishing the backlog. *)
Theorem Drain_executes_backlog :
  (forall (s s' : @System W) da,
     drain s = AtSetVerbosity -> this (proc s) = Some da ->
     drainStep s = Some s' ->
     drain s' = AtPoll /\
     this (proc s') = Some (set_events (Some NewEventFlagSetNone) da) /\
     forall e, exists r, callEmission e (proc s') = Returns (r, proc s')) /\
  (forall (s : @System W) da,
     drain s = AtPoll -> this (proc s) = Some da ->
     drainStep s =
       Some (if (0 <? Queue_Len (eventQueue da))%nat then s else set_drain AtClose s)) /\
  (forall (s0 s : @System W) e,
     drain s0 = AtSetVerbosity -> steps s0 s -> drain s <> AtSetVerbosity ->
     exists r, callEmission e (proc s) = Returns (r, proc s)) /\
  (forall (s0 s : @System W) err,
     drain s0 = AtSetVerbosity -> steps s0 s -> drain s = DrainReturned err ->
     executed s0 ++ inflight s0 ++ pending (proc s0) ⊆+ executed s /\
     pending (proc s) = [] /\ inflight s = [] /\ queueClosed (proc s)) /\
  (forall (s0 : @System W) da,
     drain s0 = AtSetVerbosity -> this (proc s0) = Some da ->
     exists s, steps s0 s /\ drain s = DrainReturned None /\
               executed s = executed s0 ++ inflight s0 ++ pending (proc s0)).
Proof.
  split; [|split; [|split; [|split]]].
  - intros [[r n] infl ex pc] s' da; simpl. intros -> -> Hd.
    unfold drainStep in Hd; simpl in Hd. simplify_eq. simpl.
    split; [done|]. split; [done|].
    intros e. apply callEmission_disabled. intros k.
    unfold isEnabled; simpl. by rewrite bool_decide_eq_false_2 by set_solver.
  - intros [[r n] infl ex pc] da; simpl. intros -> ->.
    unfold drainStep; simpl. by destruct (0 <? Queue_Len (eventQueue da))%nat.
  - intros s0 s e H0 Hsteps Hpc.
    destruct (steps_invariants _ _ Hsteps) as (_ & _ & Hoff).
    apply callEmission_disabled. apply Hoff; [|done].
    unfold flagsOff. by rewrite H0.
  - intros s0 s err H0 Hsteps Hret.
    destruct (steps_invariants _ _ Hsteps) as (Howed & Hinv & _).
    assert (Hs : shutdownInv s).
    { apply Hinv. unfold shutdownInv. by rewrite H0. }
    unfold shutdownInv in Hs. rewrite Hret in Hs. destruct Hs as (Hc & Hp & Hi).
    repeat split; try done.
    unfold owed in Howed. by rewrite Hp, Hi, !app_nil_r in Howed.
  - intros [[r n] infl ex pc] da; simpl. intros -> ->.
    unfold pending; simpl. apply Drain_can_return.
Qed.

(** ** Further properties of the agent *)

(** *** The registry *)

(** X1: on an agent with a registry, [AddEventListener] puts the listener
    last among the kind's listeners, makes [HasListener] answer true for
    the kind, and touches neither another kind's listeners nor the flags,
    the queue or the clock. *)
Theorem AddEventListener_registers_last p da m (eventFlag : EventFlag)
    (listener : EventListener) :
  this p = Some da -> eventListeners da = Some m ->
  exists p' da',
    AddEventListener eventFlag listener p = Returns (tt, p') /\
    this p' = Some da' /\
    HasListener eventFlag p' = Returns (true, p') /\
    listenersOf da' eventFlag = listenersOf da eventFlag ++ [listener] /\
    (forall other, other <> eventFlag -> listenersOf da' other = listenersOf da other) /\
    events da' = events da /\ eventQueue da' = eventQueue da /\
    writer da' = writer da /\ ticks p' = ticks p.
Proof.
  intros Hda Hm.
  destruct (AddEventListener_appends p da m eventFlag listener Hda Hm)
    as (da' & Hrun & Hk & Hother).
  exists (mkProcess (Some da') (ticks p)), da'.
  split; [done|]. split; [done|]. split.
  { rewrite HasListener_run. unfold hasListener; simpl. rewrite Hk, length_app.
    simpl. by replace (length (listenersOf da eventFlag) + 1) with
      (S (length (listenersOf da eventFlag))) by lia. }
  split; [done|]. split; [done|].
  destruct p as [r n]; simpl in *; subst.
  unfold AddEventListener, bind in Hrun; simpl in Hrun. rewrite Hm in Hrun.
  unfold update in Hrun; simpl in Hrun. simplify_eq. by repeat split.
Qed.

Lemma RemoveListeners_clears_nothing_else p da (eventFlag : EventFlag) :
  this p = Some da ->
  exists p' da',
    RemoveListeners eventFlag p = Returns (tt, p') /\ this p' = Some da' /\
    listenersOf da' eventFlag = [] /\ eventQueue da' = eventQueue da.
Proof.
  destruct p as [r n]; simpl; intros ->.
  unfold RemoveListeners, bind; simpl.
  destruct (eventListeners da) as [m|] eqn:Hm; simpl.
  - eexists _, _. split; [reflexivity|]. split; [reflexivity|].
    unfold listenersOf; simpl. by rewrite lookup_delete_eq.
  - exists (mkProcess (Some da) n), da. repeat split.
    unfold listenersOf. by rewrite Hm.
Qed.

(** X2: on any agent [RemoveListeners] leaves the kind without listeners,
    so that [HasListener] answers false for it, keeps every other kind's
    listeners, the flags and the queue, and changes nothing when it is
    repeated. *)
Theorem RemoveListeners_clears_kind p da (eventFlag : EventFlag) :
  this p = Some da ->
  exists p' da',
    RemoveListeners eventFlag p = Returns (tt, p') /\
    this p' = Some da' /\
    HasListener eventFlag p' = Returns (false, p') /\
    listenersOf da' eventFlag = [] /\
    (forall other, other <> eventFlag -> listenersOf da' other = listenersOf da other) /\
    events da' = events da /\ eventQueue da' = eventQueue da /\
    RemoveListeners eventFlag p' = Returns (tt, p').
Proof.
  destruct p as [r n]; simpl; intros ->.
  unfold RemoveListeners, bind; simpl.
  destruct (eventListeners da) as [m|] eqn:Hm; simpl.
  - eexists _, _. split; [reflexivity|]. split; [reflexivity|].
    rewrite HasListener_run. unfold hasListener, listenersOf; simpl.
    rewrite Hm, lookup_delete_eq. simpl.
    repeat split; try done.
    + intros other Hne. by rewrite lookup_delete_ne.
    + by rewrite delete_delete_eq.
  - exists (mkProcess (Some da) n), da. split; [done|]. split; [done|].
    rewrite HasListener_run. unfold hasListener, listenersOf; simpl.
    rewrite Hm. simpl. by repeat split.
Qed.

Lemma callRegistry_keeps_nonEmpty (c : RegistryCall) p da p' :
  this p = Some da -> registryNonEmpty da ->
  callRegistry c p = Returns (tt, p') ->
  exists da', this p' = Some da' /\ registryNonEmpty da'.
Proof.
  destruct p as [r n]; simpl; intros -> Hinv.
  unfold registryNonEmpty in Hinv.
  destruct c as [k l|k]; simpl;
    unfold AddEventListener, RemoveListeners, bind; simpl;
    destruct (eventListeners da) as [m|] eqn:Hm; unfold update, ret, panic; simpl;
    intros Hrun; simplify_eq; eexists; (split; [reflexivity|]);
    unfold registryNonEmpty; simpl; rewrite ?Hm; try done.
  - intros k' ls. destruct (decide (k = k')) as [->|Hne].
    + rewrite lookup_insert_eq. intros [= <-]. by destruct (listenersOf da k').
    + rewrite lookup_insert_ne by done. apply Hinv.
  - intros k' ls. destruct (decide (k = k')) as [->|Hne].
    + by rewrite lookup_delete_eq.
    + rewrite lookup_delete_ne by done. apply Hinv.
Qed.

(** X3: whatever registrations and removals are made, in whatever order,
    on an agent whose registry entries are all non-empty (as after [New]),
    the entries stay non-empty; so [HasListener] answers true for exactly
    the kinds that have an entry. *)
Theorem registry_entries_stay_nonempty (cs : list RegistryCall) p da p' da' :
  this p = Some da -> registryNonEmpty da ->
  callsRegistry cs p = Returns (tt, p') -> this p' = Some da' ->
  registryNonEmpty da' /\
  forall m' (eventFlag : EventFlag), eventListeners da' = Some m' ->
    (HasListener eventFlag p' = Returns (true, p') <-> is_Some (m' !! eventFlag)).
Proof.
  intros Hda Hinv Hrun Hda'.
  assert (Hinv' : registryNonEmpty da').
  { revert p da Hda Hinv Hrun.
    induction cs as [|c rest IH]; intros p da Hda Hinv Hrun; simpl in Hrun.
    - unfold ret in Hrun. simplify_eq. congruence.
    - unfold bind in Hrun.
      destruct (callRegistry c p) as [[[] p1]|why] eqn:Hc; [|done].
      destruct (callRegistry_keeps_nonEmpty c p da p1 Hda Hinv Hc) as (da1 & Hda1 & Hinv1).
      by apply (IH p1 da1). }
  split; [done|].
  intros m' k Hm'. rewrite HasListener_run.
  unfold hasListener, listenersOf. rewrite Hda', Hm'.
  unfold registryNonEmpty in Hinv'. rewrite Hm' in Hinv'.
  destruct (m' !! k) as [ls|] eqn:Hk; simpl.
  - specialize (Hinv' k ls Hk). destruct ls; [done|]. simpl.
    split; [by eauto|done].
  - split; [done|]. by intros [? ?].
Qed.

(** X4: on an agent whose registry is the nil map (a zero [Agent] value)
    [AddEventListener] panics on the map write, while [HasListener],
    [RemoveListeners], [OnEvent] and a trigger task all treat the kind as
    having no listeners. *)
Theorem nil_registry_map p da (eventFlag : EventFlag) (listener : EventListener)
    (state : list Value) (ts : TimeSource) w :
  this p = Some da -> eventListeners da = None ->
  AddEventListener eventFlag listener p = Panics NilMapWrite /\
  HasListener eventFlag p = Returns (false, p) /\
  RemoveListeners eventFlag p = Returns (tt, p) /\
  OnEvent eventFlag state p = Returns (tt, p) /\
  triggerListeners da (VTime ts :: VFlag eventFlag :: state) w = Returns (w, None).
Proof.
  destruct p as [r n]; simpl; intros -> Hm.
  assert (Hl : hasListener (mkProcess (Some da) n) eventFlag = false).
  { unfold hasListener, listenersOf; simpl. by rewrite Hm. }
  repeat split.
  - unfold AddEventListener, bind; simpl. by rewrite Hm.
  - by rewrite HasListener_run, Hl.
  - unfold RemoveListeners, bind; simpl. by rewrite Hm.
  - by rewrite OnEvent_run, Hl, andb_false_r.
  - rewrite triggerListeners_spread. unfold listenersOf. by rewrite Hm.
Qed.

(** *** Emission in general *)

(** What an emission call can leave behind: nothing, one [Enqueue] or two,
    each after its own reading of the clock. *)
Lemma callEmission_cases e p :
  exists r p',
    callEmission e p = Returns (r, p') /\
    (p' = p \/ (exists t, p' = enqueued t (tick p)) \/
     (exists t1 t2, p' = enqueued t2 (tick (enqueued t1 (tick p))))).
Proof.
  destruct e as [k st|f a|f a|f a|f a|f a|[e|]|[e|] rq|[e|]|[e|] rq|[e|]|[e|] rq];
    cbn [callEmission];
    to_shape;
    rewrite ?OnEvent_run, ?emitf_run;
    try (unfold bind at 1; rewrite ?emitErrorf_run, ?emitError_run);
    unfold emitError, bind, ret; cbv zeta;
    repeat case_match;
    (eexists _, _; split; [reflexivity|eauto 10]).
Qed.

Lemma enqueued_effect (t : Task) p da :
  this p = Some da ->
  exists da' added,
    this (enqueued t (tick p)) = Some da' /\
    ticks (enqueued t (tick p)) = S (ticks p) /\
    writer da' = writer da /\ events da' = events da /\
    eventListeners da' = eventListeners da /\
    closed (eventQueue da') = closed (eventQueue da) /\
    work (eventQueue da') = work (eventQueue da) ++ added /\
    added = (if closed (eventQueue da) then [] else [t]).
Proof.
  destruct p as [r n]; simpl; intros ->.
  unfold enqueued, Queue_Enqueue; simpl.
  destruct da as [wr ev ls q]; simpl.
  destruct (closed q) eqn:Hc; simpl.
  - eexists _, []. rewrite app_nil_r. repeat split; auto.
  - eexists _, [t]. simpl. repeat split; auto.
Qed.

Lemma disabled_everywhere_is_silent e p :
  (forall eventFlag, isEnabled p eventFlag = false) ->
  exists r, callEmission e p = Returns (r, p).
Proof. apply callEmission_disabled. Qed.


(** X6: an emission call changes the agent only by appending to its
    queue: the writer, the flag set, the registry and the queue's closed
    mark stay as they are, at most two tasks are added, none to a closed
    queue, and on an open queue the clock is read once per task added. *)
Theorem emission_only_appends e p r p' da :
  this p = Some da -> callEmission e p = Returns (r, p') ->
  exists da' added,
    this p' = Some da' /\
    writer da' = writer da /\ events da' = events da /\
    eventListeners da' = eventListeners da /\
    closed (eventQueue da') = closed (eventQueue da) /\
    work (eventQueue da') = work (eventQueue da) ++ added /\
    length added <= 2 /\
    (closed (eventQueue da) = true -> added = []) /\
    (closed (eventQueue da) = false -> ticks p' = ticks p + length added).
Proof.
  intros Hda Hrun.
  destruct (callEmission_cases e p) as (r0 & p0 & H & [->|[[t ->]|(t1 & t2 & ->)]]);
    rewrite H in Hrun; simplify_eq.
  - exists da, []. rewrite app_nil_r. simpl. repeat split; try done; lia.
  - destruct (enqueued_effect t p da Hda)
      as (da' & added & Hda' & Ht & Hw & He & Hl & Hc & Hwork & Hadd).
    exists da', added. rewrite Ht.
    repeat split; try done; subst added;
      destruct (closed (eventQueue da)); simpl; try done; lia.
  - destruct (enqueued_effect t1 p da Hda)
      as (da1 & a1 & Hda1 & Ht1 & Hw1 & He1 & Hl1 & Hc1 & Hwork1 & Hadd1).
    destruct (enqueued_effect t2 _ da1 Hda1)
      as (da2 & a2 & Hda2 & Ht2 & Hw2 & He2 & Hl2 & Hc2 & Hwork2 & Hadd2).
    exists da2, (a1 ++ a2). rewrite Ht2, Ht1, Hwork2, Hwork1, app_assoc.
    repeat split; try congruence; subst a1 a2; rewrite Hc1;
      destruct (closed (eventQueue da)); simpl; try done; lia.
Qed.

(** X7: each method is gated by its own kind alone: when [IsEnabled]
    answers false for the kind of a call ([OnEvent]'s argument, info for
    [Infof], warning for [Warningf], [Warning] and [WarningWithReq], and so
    on), the call leaves the process exactly as it was, whichever other
    kinds are enabled and whoever listens. *)
Theorem disabled_kind_is_silent e p :
  IsEnabled (flagOf e) p = Returns (false, p) ->
  exists r, callEmission e p = Returns (r, p).
Proof.
  rewrite IsEnabled_run. intros Hoff. injection Hoff as Hoff.
  destruct e as [k st|f a|f a|f a|f a|f a|[e|]|[e|] rq|[e|]|[e|] rq|[e|]|[e|] rq];
    cbn [callEmission flagOf] in *;
    to_shape;
    rewrite ?OnEvent_run, ?emitf_run;
    try (unfold bind at 1; rewrite ?emitErrorf_run, ?emitError_run);
    rewrite ?Hoff; cbn [andb]; unfold emitError, bind, ret; eauto.
Qed.

(** X8: [Infof] on an enabled info kind, an open queue and a non-empty
    format appends the write task, stamped with one reading of the clock,
    and then, exactly when a listener is registered for the kind, the
    trigger task, stamped with the next reading and carrying the format
    and the arguments as its state; [Debugf] does the same for its kind
    and colour. *)
Theorem Infof_enqueues_write_then_trigger p da (format : string)
    (argv : list Value) (heardInfo heardDebug : bool) :
  this p = Some da -> closed (eventQueue da) = false -> format <> "" ->
  HasListener EventInfo p = Returns (heardInfo, p) ->
  HasListener EventDebug p = Returns (heardDebug, p) ->
  (IsEnabled EventInfo p = Returns (true, p) ->
   exists p',
     Infof format argv p = Returns (tt, p') /\
     pending p' =
       pending p ++
       mkTask ActWrite (VTime (clock (ticks p)) :: VFlag EventInfo :: VColor ColorWhite
                        :: VString format :: argv)
       :: (if heardInfo
           then [mkTask ActTriggerListeners
                   (VTime (clock (S (ticks p))) :: VFlag EventInfo
                    :: VString format :: argv)]
           else [])) /\
  (IsEnabled EventDebug p = Returns (true, p) ->
   exists p',
     Debugf format argv p = Returns (tt, p') /\
     pending p' =
       pending p ++
       mkTask ActWrite (VTime (clock (ticks p)) :: VFlag EventDebug
                        :: VColor ColorLightYellow :: VString format :: argv)
       :: (if heardDebug
           then [mkTask ActTriggerListeners
                   (VTime (clock (S (ticks p))) :: VFlag EventDebug
                    :: VString format :: argv)]
           else [])).
Proof.
  intros Hda Hopen Hne. rewrite !HasListener_run, !IsEnabled_run.
  intros Hi Hd. injection Hi as Hi. injection Hd as Hd.
  assert (Hlen : (0 <? String.length format)%nat = true) by (by destruct format).
  split; intros Hen; injection Hen as Hen; to_shape;
    rewrite emitf_run, Hen, Hlen, ?Hi, ?Hd; cbv zeta;
    clear Hi Hd Hen;
    (eexists; split; [reflexivity|]);
    destruct p as [r n]; simpl in Hda; subst r;
    [destruct heardInfo|destruct heardDebug];
    unfold pending, enqueued, Queue_Enqueue; simpl; rewrite Hopen; simpl;
    rewrite ?Hopen; simpl; by rewrite <- ?app_assoc.
Qed.

(** *** The write path *)

Lemma appended_one (l : list Task) (t : Task) : l <> l ++ [t].
Proof.
  intros Heq. apply (f_equal length) in Heq. rewrite length_app in Heq.
  simpl in Heq. lia.
Qed.

(** The only way a call that returned [p'] has made [t] the last pending
    task: it ended with the [Enqueue] of [t]. *)
Lemma enqueued_last p (t0 t : Task) :
  pending (enqueued t0 (tick p)) = pending p ++ [t] -> t = t0.
Proof.
  destruct p as [[da|] n]; unfold pending, enqueued, Queue_Enqueue; simpl.
  - destruct (closed (eventQueue da)); simpl; intros Heq.
    + by apply appended_one in Heq.
    + apply app_inv_head in Heq. by simplify_eq.
  - done.
Qed.

Lemma writeWithOutput_decoded da
    (output : TimeSource -> string -> list Value -> W -> W * option GoError)
    (ts : TimeSource) (eventFlag : EventFlag) (color : AnsiColorCode)
    (format : string) (argv : list Value) w :
  writeWithOutput da output
    (VTime ts :: VFlag eventFlag :: VColor color :: VString format :: argv) w =
  Returns (output ts "%s %s"
             [VString (Colorize (writer da) eventFlag color);
              VString (Sprintf format argv)] w).
Proof. done. Qed.

(** X9: the task that [queueWrite] appends to the queue, run by a worker,
    calls the writer's [PrintfWithTimeSource] once, with the instant read
    when the task was enqueued, the format ["%s %s"], the colourised kind
    and the message formatted from the format and arguments that
    [queueWrite] received, and returns what the writer returns; the task
    of [queueWriteError] does the same through [ErrorfWithTimeSource]. *)
Theorem write_task_round_trip p p' (t : Task) (eventFlag : EventFlag)
    (color : AnsiColorCode) (format : string) (argv : list Value) da' w :
  pending p' = pending p ++ [t] ->
  (queueWrite eventFlag color format argv p = Returns (tt, p') ->
   runTask da' t w =
   Returns (PrintfWithTimeSource (writer da') (clock (ticks p)) "%s %s"
              [VString (Colorize (writer da') eventFlag color);
               VString (Sprintf format argv)] w)) /\
  (queueWriteError eventFlag color format argv p = Returns (tt, p') ->
   runTask da' t w =
   Returns (ErrorfWithTimeSource (writer da') (clock (ticks p)) "%s %s"
              [VString (Colorize (writer da') eventFlag color);
               VString (Sprintf format argv)] w)).
Proof.
  intros Hpend.
  destruct p as [[da|] n].
  - rewrite (queueWrite_run _ da), (queueWriteError_run _ da) by done.
    split; intros Hrun; injection Hrun as <-;
      (destruct (0 <? String.length format)%nat;
       [apply enqueued_last in Hpend as ->|by apply appended_one in Hpend]);
      apply writeWithOutput_decoded.
  - unfold queueWrite, queueWriteError.
    split; (destruct (0 <? String.length format)%nat;
            [done|intros Hrun; unfold ret in Hrun; simplify_eq;
                  by apply appended_one in Hpend]).
Qed.

(** X10: with the error kind enabled on an open queue, [Errorf] appends a
    write task that prints on the error stream the text of the error it
    returns, while [Error] appends one whose format is the error rendered
    with ["%+v"] and which has no arguments: the worker formats that text
    once more before it prints it. *)
Theorem error_lines_printed p da (format : string) (argv : list Value)
    (e : GoError) w :
  this p = Some da -> closed (eventQueue da) = false ->
  IsEnabled EventError p = Returns (true, p) ->
  (format <> "" ->
   exists p' t rest,
     Errorf format argv p = Returns (Some (errorString (Sprintf format argv)), p') /\
     pending p' = pending p ++ t :: rest /\
     forall da', runTask da' t w =
       Returns (ErrorfWithTimeSource (writer da') (clock (ticks p)) "%s %s"
                  [VString (Colorize (writer da') EventError ColorRed);
                   VString (Sprintf format argv)] w)) /\
  (Sprintf "%+v" [VError e] <> "" ->
   exists p' t rest,
     Error (Some e) p = Returns (Some e, p') /\
     pending p' = pending p ++ t :: rest /\
     forall da', runTask da' t w =
       Returns (ErrorfWithTimeSource (writer da') (clock (ticks p)) "%s %s"
                  [VString (Colorize (writer da') EventError ColorRed);
                   VString (Sprintf (Sprintf "%+v" [VError e]) [])] w)).
Proof.
  intros Hda Hopen. rewrite IsEnabled_run. intros Hen. injection Hen as Hen.
  assert (Hlen : forall f : string, f <> "" -> (0 <? String.length f)%nat = true).
  { by intros []. }
  split; intros Hne; to_shape;
    rewrite ?emitErrorf_run, ?emitError_run, Hen; cbv zeta;
    rewrite (Hlen _ Hne);
    destruct p as [r n]; simpl in Hda; subst r;
    destruct (hasListener _ _);
    (eexists _, _, _; split; [reflexivity|]);
    (split;
     [ unfold pending, enqueued, Queue_Enqueue; simpl; rewrite Hopen; simpl;
       rewrite ?Hopen; simpl; rewrite <- ?app_assoc; simpl; reflexivity
     | intros da'; apply writeWithOutput_decoded ]).
Qed.

(** X11: a write task whose arguments do not start with an instant, a
    kind, a colour and a format, in this order, never reaches the writer:
    the world stays as it was, and the task returns nil when it has fewer
    than four arguments and a decoding error otherwise. *)
Theorem writeWithOutput_rejects_malformed da
    (output : TimeSource -> string -> list Value -> W -> W * option GoError)
    (actionState : list Value) w :
  (forall ts eventFlag color format rest,
     actionState <> VTime ts :: VFlag eventFlag :: VColor color :: VString format :: rest) ->
  exists err,
    writeWithOutput da output actionState w = Returns (w, err) /\
    (err = None <-> length actionState < 4).
Proof.
  intros Hbad.
  destruct actionState as [|a0 [|a1 [|a2 [|a3 rest]]]];
    try (exists None; split; [done|]; simpl; split; [lia|done]).
  assert (Hlong : forall e : GoError,
            Some e = None <-> length (a0 :: a1 :: a2 :: a3 :: rest) < 4).
  { intros e. simpl. split; [done|lia]. }
  destruct a0; try (eexists; split; [reflexivity|apply Hlong]).
  destruct a1; try (eexists; split; [reflexivity|apply Hlong]).
  destruct a2; try (eexists; split; [reflexivity|apply Hlong]).
  destruct a3; try (eexists; split; [reflexivity|apply Hlong]).
  by edestruct Hbad.
Qed.

(** *** The trigger path *)

(** X12: a trigger task whose arguments do not start with an instant and
    a kind calls no listener: the world stays as it was, and the task
    returns nil when it has fewer than two arguments and a decoding error
    otherwise. *)
Theorem triggerListeners_rejects_malformed da (actionState : list Value) w :
  (forall ts eventFlag rest, actionState <> VTime ts :: VFlag eventFlag :: rest) ->
  exists err,
    triggerListeners da actionState w = Returns (w, err) /\
    (err = None <-> length actionState < 2).
Proof.
  intros Hbad.
  destruct actionState as [|a0 [|a1 rest]];
    try (exists None; split; [done|]; simpl; split; [lia|done]).
  assert (Hlong : forall e : GoError,
            Some e = None <-> length (a0 :: a1 :: rest) < 2).
  { intros e. simpl. split; [done|lia]. }
  destruct a0; try (eexists; split; [reflexivity|apply Hlong]).
  destruct a1; try (eexists; split; [reflexivity|apply Hlong]).
  by edestruct Hbad.
Qed.

Lemma OnEvent_task p p' (t : Task) (eventFlag : EventFlag) (state : list Value) :
  OnEvent eventFlag state p = Returns (tt, p') ->
  pending p' = pending p ++ [t] ->
  t = spreadTrigger (clock (ticks p)) eventFlag state /\
  p' = enqueued t (tick p).
Proof.
  rewrite OnEvent_run. intros Hrun Hpend. injection Hrun as <-.
  destruct (isEnabled p eventFlag && hasListener p eventFlag).
  - by apply enqueued_last in Hpend as ->.
  - by apply appended_one in Hpend.
Qed.

(** X13: the registry is read when the task runs, not when it is
    enqueued.  If the kind's listeners are removed after [OnEvent] has
    enqueued its task, the task stays in the queue and calls nobody when
    it runs; if a listener is added meanwhile, the task calls it too,
    after the ones registered before. *)
Theorem registry_is_read_at_execution p p1 (t : Task) (eventFlag : EventFlag)
    (state : list Value) (listener : EventListener) w :
  OnEvent eventFlag state p = Returns (tt, p1) ->
  pending p1 = pending p ++ [t] ->
  (exists p2 da2,
     RemoveListeners eventFlag p1 = Returns (tt, p2) /\ this p2 = Some da2 /\
     pending p2 = pending p1 /\
     runTask da2 t w = Returns (w, None)) /\
  (exists p2 da1 da2,
     AddEventListener eventFlag listener p1 = Returns (tt, p2) /\
     this p1 = Some da1 /\ this p2 = Some da2 /\
     pending p2 = pending p1 /\
     runTask da2 t w =
       w1 ← invokeInOrder (listenersOf da1 eventFlag) (writer da1)
              (clock (ticks p)) eventFlag state w;
       w2 ← listener (writer da1) (clock (ticks p)) eventFlag state w1;
       Returns (w2, None)).
Proof.
  intros Hrun Hpend.
  destruct (OnEvent_task _ _ _ _ _ Hrun Hpend) as [-> ->].
  rewrite OnEvent_run in Hrun. injection Hrun as Hrun.
  destruct (isEnabled p eventFlag && hasListener p eventFlag) eqn:Hc;
    [|rewrite <- Hrun in Hpend; by apply appended_one in Hpend].
  apply andb_prop in Hc as [Hen Hl].
  destruct p as [[da|] n]; [|done]. clear Hrun.
  set (p1 := enqueued _ _) in *.
  assert (Hp1 : exists da1, this p1 = Some da1 /\ eventListeners da1 = eventListeners da
                            /\ writer da1 = writer da) by (by eexists).
  destruct Hp1 as (da1 & Hda1 & Hls & Hwr).
  destruct (eventListeners da) as [m|] eqn:Hm;
    [|unfold hasListener, listenersOf in Hl; simpl in Hl; by rewrite Hm in Hl].
  split.
  - destruct (RemoveListeners_clears_nothing_else p1 da1 eventFlag Hda1)
      as (p2 & da2 & Hrm & Hda2 & Hnone & Hq).
    exists p2, da2. split; [done|]. split; [done|]. split.
    { unfold pending. by rewrite Hda2, Hda1, Hq. }
    unfold runTask, spreadTrigger; simpl.
    rewrite triggerListeners_spread, Hnone. done.
  - destruct (AddEventListener_appends p1 da1 m eventFlag listener Hda1)
      as (da2 & Hadd & Hk & _); [congruence|].
    exists (mkProcess (Some da2) (ticks p1)), da1, da2.
    split; [done|]. split; [done|]. split; [done|].
    assert (Hsame : eventQueue da2 = eventQueue da1 /\ writer da2 = writer da1).
    { destruct p1 as [r1 n1]; simpl in Hda1; subst r1.
      unfold AddEventListener, bind, update in Hadd; simpl in Hadd.
      rewrite Hls in Hadd. simpl in Hadd. by simplify_eq. }
    destruct Hsame as [Hq Hw]. split.
    { unfold pending. cbn [this]. by rewrite Hda1, Hq. }
    unfold runTask, spreadTrigger; simpl.
    rewrite triggerListeners_spread, Hk, Hw.
    generalize (listenersOf da1 eventFlag). intros ls. revert w.
    induction ls as [|l ls IH]; intros w; simpl.
    + by destruct (listener _ _ _ _ _).
    + destruct (l _ _ _ _ _) as [w'|why]; simpl; [apply IH|done].
Qed.

(** *** More on the adapters *)

(** X14: the adapters for one argument - error, request start, request
    body, response - never panic; each calls its callback once, with the
    decoded first argument, exactly when there is a first argument of its
    type, whatever follows it, and otherwise leaves the world as it was. *)
Theorem single_argument_adapters (onError : ErrorListener)
    (onStart : RequestStartListener) (onBody : RequestBodyListener)
    (onResponse : ResponseListener) wr (ts : TimeSource) (eventFlag : EventFlag)
    (state : list Value) w :
  NewErrorListener onError wr ts eventFlag state w =
    Returns (match state with VError err :: _ => onError wr ts err w | _ => w end) /\
  NewRequestStartListener onStart wr ts eventFlag state w =
    Returns (match state with VRequest req :: _ => onStart wr ts req w | _ => w end) /\
  NewRequestBodyListener onBody wr ts eventFlag state w =
    Returns (match state with VBytes body :: _ => onBody wr ts body w | _ => w end) /\
  NewResponseListener onResponse wr ts eventFlag state w =
    Returns (match state with VBytes res :: _ => onResponse wr ts res w | _ => w end).
Proof. repeat split; destruct state as [|[] ?]; done. Qed.

(** X15: with any number of arguments other than three the request
    adapter never panics: it calls its callback once, with the decoded
    request, status, length and duration, exactly when the first four
    arguments have these types, and otherwise leaves the world as it
    was. *)
Theorem NewRequestListener_safe_off_three (listener : RequestListener) wr
    (ts : TimeSource) (eventFlag : EventFlag) (state : list Value) w :
  length state <> 3 ->
  NewRequestListener listener wr ts eventFlag state w =
  Returns (match state with
           | VRequest req :: VInt statusCode :: VInt contentLengthBytes
             :: VDuration elapsed :: _ =>
             listener wr ts req statusCode contentLengthBytes elapsed w
           | _ => w
           end).
Proof.
  intros Hlen. rewrite NewRequestListener_run.
  destruct state as [|[] [|[] [|[] [|[] rest]]]]; done.
Qed.

(** X16: events sent with [OnEvent] reach the typed callbacks.  The task
    that [OnEvent] enqueues for a request, a status, a length and a
    duration makes a registered request adapter call its callback once
    with these four values, the agent's writer and the instant of the
    [OnEvent] call; likewise an error sent with [OnEvent] reaches the
    callback of an error adapter. *)
Theorem OnEvent_reaches_typed_callbacks p da' (eventFlag : EventFlag)
    (req : option Request) (statusCode contentLengthBytes elapsed : Z)
    (err : GoError) (onRequest : RequestListener) (onError : ErrorListener) w :
  (forall p' t,
     OnEvent eventFlag [VRequest req; VInt statusCode; VInt contentLengthBytes;
                        VDuration elapsed] p = Returns (tt, p') ->
     pending p' = pending p ++ [t] ->
     listenersOf da' eventFlag = [NewRequestListener onRequest] ->
     runTask da' t w =
       Returns (onRequest (writer da') (clock (ticks p)) req statusCode
                  contentLengthBytes elapsed w, None)) /\
  (forall p' t,
     OnEvent eventFlag [VError err] p = Returns (tt, p') ->
     pending p' = pending p ++ [t] ->
     listenersOf da' eventFlag = [NewErrorListener onError] ->
     runTask da' t w = Returns (onError (writer da') (clock (ticks p)) err w, None)).
Proof.
  split; intros p' t Hrun Hpend Hls;
    destruct (OnEvent_task _ _ _ _ _ Hrun Hpend) as [-> _];
    unfold runTask, spreadTrigger; simpl;
    rewrite triggerListeners_spread, Hls; done.
Qed.

(** *** Nil receivers and fresh agents *)

(** X17: on a nil receiver [IsEnabled] and [HasListener] answer false and
    every call of the emission API returns without any effect. *)
Theorem nil_receiver_is_quiet (eventFlag : EventFlag) (e : Emission) :
  IsEnabled eventFlag (@nilProcess W) = Returns (false, nilProcess) /\
  HasListener eventFlag (@nilProcess W) = Returns (false, nilProcess) /\
  exists r, callEmission e (@nilProcess W) = Returns (r, nilProcess).
Proof.
  split; [done|]. split; [done|].
  apply disabled_everywhere_is_silent. done.
Qed.

(** X18: an agent fresh from [New] has no listeners, so [OnEvent] does
    nothing on it whatever is enabled; once a listener is added for an
    enabled kind, [OnEvent] enqueues one task, and running that task calls
    the listener once with the agent's writer, the instant of the
    [OnEvent] call, the kind and the state. *)
Theorem fresh_agent_dispatches (flags : option EventFlagSet) (wr : Logger)
    (n : nat) (eventFlag : EventFlag) (listener : EventListener)
    (state : list Value) w :
  let p0 := mkProcess (Some (New flags wr)) n in
  (forall other, HasListener other p0 = Returns (false, p0)) /\
  OnEvent eventFlag state p0 = Returns (tt, p0) /\
  registryNonEmpty (New flags wr) /\
  (efs_IsEnabled flags eventFlag = true ->
   exists p1 p2 da2 t,
     AddEventListener eventFlag listener p0 = Returns (tt, p1) /\
     OnEvent eventFlag state p1 = Returns (tt, p2) /\
     this p2 = Some da2 /\ pending p2 = [t] /\
     runTask da2 t w =
       w' ← listener wr (clock n) eventFlag state w; Returns (w', None)).
Proof.
  intros p0. split; [done|]. split.
  { rewrite OnEvent_run. unfold hasListener, listenersOf; simpl.
    by rewrite andb_false_r. }
  split; [by intros k ls|].
  intros Hen. eexists _, _, _, _.
  split; [reflexivity|]. simpl.
  split.
  { rewrite OnEvent_run. unfold isEnabled, hasListener, listenersOf; simpl.
    rewrite Hen, lookup_insert_eq. simpl. reflexivity. }
  split; [reflexivity|]. split; [reflexivity|].
  unfold runTask; simpl. rewrite triggerListeners_spread.
  unfold listenersOf; simpl. rewrite lookup_insert_eq. simpl.
  rewrite lookup_empty. simpl.
  by destruct (listener wr (clock n) eventFlag state w).
Qed.

End Properties.

(** ** The request-body helper, end to end *)

Section HelperProperties.

Context {W : Type}.
Context `{pkg : Package}.
Context `{hpkg : HelperPackage}.
Variable buffersOf : @Logger W -> @LoggerBuffers W.

(** X19: a request body sent with [OnEvent], once its task runs with the
    example's body callback registered through the body adapter, reaches
    the writer in one [Write]: the bytes are what the pooled buffer held,
    the colourised label "Request Body", the space and then the body,
    byte for byte; the buffer goes back to the pool after the [Write]. *)
Theorem request_body_reaches_writer (p p' : @Process W) (t : Task)
    (eventFlag : EventFlag) (body : list Byte.byte) (da' : @Agent W) (w : W) :
  OnEvent eventFlag [VBytes body] p = Returns (tt, p') ->
  pending p' = pending p ++ [t] ->
  listenersOf da' eventFlag = [NewRequestBodyListener (bodyCallback buffersOf)] ->
  let io := buffersOf (writer da') in
  let line := (GetBuffer io w).1
              ++ String.list_byte_of_string
                   (Colorize (writer da') "Request Body" ColorGreen)
              ++ RuneSpace ++ body in
  runTask da' t w =
  Returns (PutBuffer io line (Write io line (GetBuffer io w).2).1, None).
Proof.
  intros Hrun Hpend Hls io line.
  destruct (OnEvent_task _ _ _ _ _ Hrun Hpend) as [-> _].
  unfold runTask, spreadTrigger; simpl.
  rewrite triggerListeners_spread, Hls. simpl.
  unfold bodyCallback, WriteRequestBody. fold io.
  destruct (GetBuffer io w) as [buffer w1] eqn:Hget. simpl.
  subst line. simpl. rewrite <- !app_assoc.
  by destruct (Write io _ w1).
Qed.

End HelperProperties.

(** ** The statements at a concrete process *)

Lemma OnEvent_enqueues_witness :
  IsEnabled "Error" demoProcess = Returns (true, demoProcess) /\
  HasListener "Error" demoProcess = Returns (true, demoProcess) /\
  exists p',
    OnEvent (pkg := demoPackage) "Error" [VInt 7] demoProcess = Returns (tt, p') /\
    pending p' = [mkTask ActTriggerListeners [VTime 1000; VFlag "Error"; VInt 7]] /\
    ticks p' = 1.
Proof.
  split; [reflexivity|]. split; [reflexivity|].
  destruct (OnEvent_enqueues_iff_enabled_and_heard (pkg := demoPackage)
              demoProcess "Error" [VInt 7]) as [Hyes _].
  destruct Hyes as (da & Hda & Hrun & _); [reflexivity | reflexivity |].
  injection Hda as <-. eexists. split; [exact Hrun|]. split; reflexivity.
Defined.

Lemma OnEvent_task_round_trip_witness :
  let t := mkTask ActTriggerListeners
             [VTime 1000; VFlag "Error"; VError (errorString "boom")] in
  let p' := enqueued t (tick demoProcess) in
  OnEvent (pkg := demoPackage) "Error" [VError (errorString "boom")] demoProcess =
    Returns (tt, p') /\
  pending p' = pending demoProcess ++ [t] /\
  runTask (pkg := demoPackage)
    (set_eventListeners
       (Some {[ "Error" := [recordAny "first"; NewErrorListener recordError;
                            recordAny "last"] ]}) demoAgent)
    t [] = Returns (["first"; "boom"; "last"], None).
Proof.
  intros t p'. split; [reflexivity|]. split; [reflexivity|].
  rewrite (OnEvent_task_round_trip (pkg := demoPackage) demoProcess p' t
             "Error" [VError (errorString "boom")]);
    reflexivity.
Defined.

(** C1: with the error kind enabled and one error-listener adapter
    registered for it, [Errorf("boom")] returns the error "boom" and
    enqueues a write task and a trigger task; the trigger task holds one
    argument, the slice, so running it calls no listener: after both tasks
    the world holds the writer's line and no call of the callback. *)
Theorem Errorf_trigger_calls_no_listener :
  exists p' da',
    Errorf (pkg := demoPackage) "boom" [] demoProcess =
      Returns (Some (errorString "boom"), p') /\
    this p' = Some da' /\
    pending p' =
      [mkTask ActWriteError [VTime 1000; VFlag "Error"; VColor "31"; VString "boom"];
       mkTask ActTriggerListeners
         [VSlice [VTime 1001; VFlag "Error"; VError (errorString "boom")]]] /\
    listenersOf da' "Error" = [NewErrorListener recordError] /\
    runTask (pkg := demoPackage) da'
      (mkTask ActTriggerListeners
         [VSlice [VTime 1001; VFlag "Error"; VError (errorString "boom")]]) [] =
      Returns ([], None) /\
    runTasks (pkg := demoPackage) da' (pending p') [] = Returns ["stderr"].
Proof. do 2 eexists. repeat split. Qed.

(** C2: the request adapter called with a request, a status and a length
    but no duration passes its length test and panics on [state[3]]. *)
Theorem NewRequestListener_missing_duration_panics :
  NewRequestListener recordRequest demoWriter 1000%Z "Request Complete"
    [VRequest (Some (mkRequest "GET" "/" "127.0.0.1")); VInt 200; VInt 16] [] =
  Panics IndexOutOfRange.
Proof. reflexivity. Qed.

Lemma Drain_executes_backlog_witness :
  steps (pkg := demoPackage) demoSystem demoSystemDrained /\
  [demoInflightTask; demoPendingTask] ⊆+ executed demoSystemDrained.
Proof.
  assert (Hrun : steps (pkg := demoPackage) demoSystem demoSystemDrained).
  { eapply rtc_l; [apply step_drain; reflexivity|].
    eapply rtc_l; [by apply (step_worker_finish _ [] demoInflightTask [])|].
    eapply rtc_l.
    { eapply (step_worker_take _ _ demoPendingTask []); [reflexivity|reflexivity|].
      simpl. unfold DefaultAgentQueueWorkers. lia. }
    eapply rtc_l; [by apply (step_worker_finish _ [] demoPendingTask [])|].
    eapply rtc_l; [apply step_drain; reflexivity|].
    eapply rtc_l; [apply step_drain; reflexivity|].
    eapply rtc_l; [apply step_drain; reflexivity|].
    apply rtc_refl. }
  split; [exact Hrun|].
  destruct (Drain_executes_backlog (pkg := demoPackage) (W := list string))
    as (_ & _ & _ & Hsafe & _).
  destruct (Hsafe demoSystem demoSystemDrained None) as [Hsub _];
    [reflexivity|exact Hrun|reflexivity|exact Hsub].
Defined.

Lemma empty_format_enqueues_no_write_witness :
  exists p' added,
    callEmission (pkg := demoPackage) (CallErrorf "" []) demoProcess = Returns (tt, p') /\
    pending p' = pending demoProcess ++ added /\
    Forall (fun t => isWriteTask t = false) added.
Proof.
  destruct (empty_format_enqueues_no_write (pkg := demoPackage)
              demoProcess "Error" "31" []) as (_ & _ & _ & Hcalls).
  apply Hcalls. repeat constructor.
Defined.

(** *** The further properties at a concrete process *)

Lemma AddEventListener_registers_last_witness :
  this demoProcess = Some demoAgent /\
  eventListeners demoAgent = Some {[ "Error" := [NewErrorListener recordError] ]} /\
  exists p' da',
    AddEventListener "Error" (recordAny "audit") demoProcess = Returns (tt, p') /\
    this p' = Some da' /\
    listenersOf da' "Error" = [NewErrorListener recordError; recordAny "audit"].
Proof.
  split; [reflexivity|]. split; [reflexivity|].
  destruct (AddEventListener_registers_last demoProcess demoAgent
              {[ "Error" := [NewErrorListener recordError] ]} "Error"
              (recordAny "audit") eq_refl eq_refl)
    as (p' & da' & Hrun & Hda' & _ & Hls & _).
  exists p', da'. split; [exact Hrun|]. split; [exact Hda'|exact Hls].
Defined.

Lemma RemoveListeners_clears_kind_witness :
  this demoProcess = Some demoAgent /\
  exists p' da',
    RemoveListeners "Error" demoProcess = Returns (tt, p') /\
    this p' = Some da' /\ listenersOf da' "Error" = [].
Proof.
  split; [reflexivity|].
  destruct (RemoveListeners_clears_kind demoProcess demoAgent "Error" eq_refl)
    as (p' & da' & Hrun & Hda' & _ & Hls & _).
  exists p', da'. split; [exact Hrun|]. split; [exact Hda'|exact Hls].
Defined.

Lemma registry_entries_stay_nonempty_witness :
  registryNonEmpty demoAgent /\
  exists p' da',
    callsRegistry [CallAddEventListener "Info" (recordAny "a");
                   CallRemoveListeners "Error";
                   CallAddEventListener "Error" (recordAny "b")] demoProcess =
      Returns (tt, p') /\
    this p' = Some da' /\ registryNonEmpty da'.
Proof.
  assert (Hdemo : registryNonEmpty demoAgent).
  { intros k ls Hk. apply lookup_singleton_Some in Hk as [_ <-]. discriminate. }
  split; [exact Hdemo|].
  eexists _, _. split; [reflexivity|]. split; [reflexivity|].
  eapply (registry_entries_stay_nonempty
            [CallAddEventListener "Info" (recordAny "a");
             CallRemoveListeners "Error";
             CallAddEventListener "Error" (recordAny "b")] demoProcess demoAgent);
    [reflexivity|exact Hdemo|reflexivity|reflexivity].
Defined.

Lemma nil_registry_map_witness :
  eventListeners demoZeroAgent = None /\
  AddEventListener "Error" (recordAny "a") (mkProcess (Some demoZeroAgent) 0) =
    Panics NilMapWrite.
Proof.
  split; [reflexivity|].
  apply (nil_registry_map (pkg := demoPackage) (mkProcess (Some demoZeroAgent) 0)
           demoZeroAgent "Error" (recordAny "a") [] 0%Z []); reflexivity.
Defined.

Lemma emission_only_appends_witness :
  exists p' da' added,
    callEmission (pkg := demoPackage) (CallInfof "up" []) demoProcess = Returns (tt, p') /\
    this p' = Some da' /\
    work (eventQueue da') = work (eventQueue demoAgent) ++ added /\
    length added <= 2.
Proof.
  eexists. 
  destruct (emission_only_appends (pkg := demoPackage) (CallInfof "up" [])
              demoProcess tt _ demoAgent eq_refl eq_refl)
    as (da' & added & Hda' & _ & _ & _ & _ & Hwork & Hlen & _).
  exists da', added. split; [reflexivity|]. split; [exact Hda'|].
  split; [exact Hwork|exact Hlen].
Defined.

Lemma disabled_kind_is_silent_witness :
  let p := mkProcess
             (Some (set_events (Some (NewEventFlagSetWithEvents ["Error"])) demoAgent)) 3 in
  IsEnabled "Warning" p = Returns (false, p) /\
  IsEnabled "Error" p = Returns (true, p) /\
  exists r, callEmission (pkg := demoPackage) (CallWarningf "careful" []) p = Returns (r, p).
Proof.
  intros p. split; [reflexivity|]. split; [reflexivity|].
  apply (disabled_kind_is_silent (pkg := demoPackage) (CallWarningf "careful" []) p).
  reflexivity.
Defined.

Lemma Infof_enqueues_write_then_trigger_witness :
  exists p',
    Infof (pkg := demoPackage) "up" [] demoProcess = Returns (tt, p') /\
    pending p' = [mkTask ActWrite [VTime 1000; VFlag "Info"; VColor "97"; VString "up"]].
Proof.
  destruct (Infof_enqueues_write_then_trigger (pkg := demoPackage) demoProcess demoAgent
              "up" [] false false eq_refl eq_refl) as [Hinfo _];
    [discriminate|reflexivity|reflexivity|].
  destruct Hinfo as (p' & Hrun & Hpend); [reflexivity|].
  exists p'. split; [exact Hrun|exact Hpend].
Defined.

Lemma write_task_round_trip_witness :
  let t := mkTask ActWrite [VTime 1000; VFlag "Info"; VColor "97"; VString "up"; VInt 3] in
  let p' := enqueued t (tick demoProcess) in
  pending p' = pending demoProcess ++ [t] /\
  queueWrite (pkg := demoPackage) "Info" "97" "up" [VInt 3] demoProcess = Returns (tt, p') /\
  runTask (pkg := demoPackage) demoAgent t [] = Returns (["stdout"], None).
Proof.
  intros t p'. split; [reflexivity|]. split; [reflexivity|].
  destruct (write_task_round_trip (pkg := demoPackage) demoProcess p' t
              "Info" "97" "up" [VInt 3] demoAgent []) as [Hwrite _];
    [reflexivity|].
  rewrite Hwrite; reflexivity.
Defined.

Lemma error_lines_printed_witness :
  exists p' t rest,
    Error (pkg := demoPackage) (Some (errorString "disk full")) demoProcess =
      Returns (Some (errorString "disk full"), p') /\
    pending p' = pending demoProcess ++ t :: rest /\
    runTask (pkg := demoPackage) demoAgent t [] = Returns (["stderr"], None).
Proof.
  destruct (error_lines_printed (pkg := demoPackage) demoProcess demoAgent "boom" []
              (errorString "disk full") [] eq_refl eq_refl eq_refl) as [_ Herr].
  destruct Herr as (p' & t & rest & Hrun & Hpend & Htask); [discriminate|].
  exists p', t, rest. split; [exact Hrun|]. split; [exact Hpend|].
  rewrite Htask. reflexivity.
Defined.

Lemma writeWithOutput_rejects_malformed_witness :
  exists err,
    writeWithOutput (pkg := demoPackage) demoAgent (PrintfWithTimeSource demoWriter)
      [VTime 1000; VFlag "Info"; VString "97"; VString "up"] [] = Returns ([], err) /\
    (err = None <->
     length [VTime 1000; VFlag "Info"; VString "97"; VString "up"] < 4).
Proof.
  apply (writeWithOutput_rejects_malformed (pkg := demoPackage) demoAgent
           (PrintfWithTimeSource demoWriter)
           [VTime 1000; VFlag "Info"; VString "97"; VString "up"] []).
  discriminate.
Defined.

Lemma triggerListeners_rejects_malformed_witness :
  exists err,
    triggerListeners demoAgent
      [VSlice [VTime 1001; VFlag "Error"; VError (errorString "boom")]] [] =
      Returns ([], err) /\
    (err = None <->
     length [VSlice [VTime 1001; VFlag "Error"; VError (errorString "boom")]] < 2).
Proof.
  apply (triggerListeners_rejects_malformed demoAgent
           [VSlice [VTime 1001; VFlag "Error"; VError (errorString "boom")]] []).
  discriminate.
Defined.

Lemma registry_is_read_at_execution_witness :
  let t := mkTask ActTriggerListeners
             [VTime 1000; VFlag "Error"; VError (errorString "boom")] in
  let p1 := enqueued t (tick demoProcess) in
  OnEvent (pkg := demoPackage) "Error" [VError (errorString "boom")] demoProcess =
    Returns (tt, p1) /\
  pending p1 = pending demoProcess ++ [t] /\
  exists p2 da2,
    RemoveListeners "Error" p1 = Returns (tt, p2) /\ this p2 = Some da2 /\
    runTask (pkg := demoPackage) da2 t [] = Returns ([], None).
Proof.
  intros t p1. split; [reflexivity|]. split; [reflexivity|].
  destruct (registry_is_read_at_execution (pkg := demoPackage) demoProcess p1 t "Error"
              [VError (errorString "boom")] (recordAny "late") [] eq_refl eq_refl)
    as [(p2 & da2 & Hrm & Hda2 & _ & Hrun) _].
  exists p2, da2. split; [exact Hrm|]. split; [exact Hda2|exact Hrun].
Defined.

Lemma NewRequestListener_safe_off_three_witness :
  length [VRequest (Some demoRequest); VInt 200] <> 3 /\
  length [VRequest (Some demoRequest); VInt 200; VInt 16; VDuration 1500000] <> 3 /\
  NewRequestListener recordRequest demoWriter 1000%Z "Request Complete"
    [VRequest (Some demoRequest); VInt 200] [] = Returns [] /\
  NewRequestListener recordRequest demoWriter 1000%Z "Request Complete"
    [VRequest (Some demoRequest); VInt 200; VInt 16; VDuration 1500000] [] =
    Returns ["request complete"].
Proof.
  split; [simpl; lia|]. split; [simpl; lia|]. split.
  - apply (NewRequestListener_safe_off_three recordRequest demoWriter 1000%Z
             "Request Complete" [VRequest (Some demoRequest); VInt 200] []).
    simpl; lia.
  - apply (NewRequestListener_safe_off_three recordRequest demoWriter 1000%Z
             "Request Complete"
             [VRequest (Some demoRequest); VInt 200; VInt 16; VDuration 1500000] []).
    simpl; lia.
Defined.

Lemma OnEvent_reaches_typed_callbacks_witness :
  let t := mkTask ActTriggerListeners
             [VTime 1000; VFlag "Error"; VError (errorString "boom")] in
  let p' := enqueued t (tick demoProcess) in
  OnEvent (pkg := demoPackage) "Error" [VError (errorString "boom")] demoProcess =
    Returns (tt, p') /\
  pending p' = pending demoProcess ++ [t] /\
  listenersOf demoAgent "Error" = [NewErrorListener recordError] /\
  runTask (pkg := demoPackage) demoAgent t [] = Returns (["boom"], None).
Proof.
  intros t p'. split; [reflexivity|]. split; [reflexivity|]. split; [reflexivity|].
  destruct (OnEvent_reaches_typed_callbacks (pkg := demoPackage) demoProcess demoAgent
              "Error" None 0%Z 0%Z 0%Z (errorString "boom") recordRequest recordError [])
    as [_ Herr].
  apply (Herr p' t); reflexivity.
Defined.

Lemma fresh_agent_dispatches_witness :
  efs_IsEnabled (Some NewEventFlagSetAll) "Request" = true /\
  exists p1 p2 da2 t,
    AddEventListener "Request" (recordAny "seen")
      (mkProcess (Some (New (Some NewEventFlagSetAll) demoWriter)) 0) = Returns (tt, p1) /\
    OnEvent (pkg := demoPackage) "Request" [VRequest (Some demoRequest)] p1 =
      Returns (tt, p2) /\
    this p2 = Some da2 /\ pending p2 = [t] /\
    runTask (pkg := demoPackage) da2 t [] = Returns (["seen"], None).
Proof.
  split; [reflexivity|].
  destruct (fresh_agent_dispatches (pkg := demoPackage) (Some NewEventFlagSetAll)
              demoWriter 0 "Request" (recordAny "seen")
              [VRequest (Some demoRequest)] []) as (_ & _ & _ & Hgo).
  destruct Hgo as (p1 & p2 & da2 & t & Hadd & Hon & Hda2 & Hpend & Hrun); [reflexivity|].
  exists p1, p2, da2, t. repeat split; assumption.
Defined.

Lemma request_body_reaches_writer_witness :
  let da' := set_eventListeners
               (Some {[ "Request Body" :=
                          [NewRequestBodyListener
                             (bodyCallback (hpkg := demoHelperPackage)
                                (fun _ => demoBuffers))] ]}) demoAgent in
  let body := String.list_byte_of_string "{}" in
  let t := mkTask ActTriggerListeners [VTime 1000; VFlag "Request Body"; VBytes body] in
  let p := mkProcess (Some da') 0 in
  OnEvent (pkg := demoPackage) "Request Body" [VBytes body] p =
    Returns (tt, enqueued t (tick p)) /\
  pending (enqueued t (tick p)) = pending p ++ [t] /\
  runTask (pkg := demoPackage) da' t [] = Returns (["Request Body {}"], None).
Proof.
  intros da' body t p. split; [reflexivity|]. split; [reflexivity|].
  rewrite (request_body_reaches_writer (pkg := demoPackage) (hpkg := demoHelperPackage)
             (fun _ => demoBuffers) p (enqueued t (tick p)) t "Request Body" body da' []);
    reflexivity.
Defined.
